(** * unit_to_srv: conversion of systemd unit files into dinit services

    A shallow embedding of [unit_to_srv.py] and the properties of its
    time-span parser, unit file reader and key translator.

    Conventions of the model.
    - Text is a [string] of ASCII characters; [isnumeric], [isalpha] and
      [strip] are Python's [str] methods restricted to ASCII.
    - Python floats are modelled by exact rationals ([Q]).  The two agree
      as long as every value involved is exactly representable (integers
      below 2^53, which covers every duration evaluated below); rounding
      is outside the model.
    - The script's effects are kept in an explicit [state]: the strings
      passed to [target.write] in order, the alias files written, the
      strings passed to [print], and the two flags [is_pidfile] and
      [has_type].  A run ends normally, by an uncaught exception, or by
      [os._exit]. *)

From Stdlib Require Import List String Ascii Bool ZArith QArith Lia.
From Stdlib Require Import Numbers.DecimalString.
Import ListNotations.
Open Scope bool_scope.
Open Scope string_scope.

(** ** Python string primitives *)

Module Py.

Definition nl : string := String (ascii_of_nat 10) "".
Definition dq : string := String (ascii_of_nat 34) "".

Definition between (lo hi : nat) (c : ascii) : bool :=
  let n := nat_of_ascii c in (lo <=? n)%nat && (n <=? hi)%nat.

(** [ch.isnumeric()] and [ch.isalpha()] on one ASCII character. *)
Definition isnumeric_ch (c : ascii) : bool := between 48 57 c.
Definition isalpha_ch (c : ascii) : bool := between 65 90 c || between 97 122 c.

(** Whitespace removed by [str.strip()]: tab, LF, VT, FF, CR, FS, GS, RS,
    US and space. *)
Definition isspace_ch (c : ascii) : bool :=
  between 9 13 c || between 28 31 c || Ascii.eqb c " ".

Fixpoint all_chars (p : ascii -> bool) (s : string) : bool :=
  match s with
  | "" => true
  | String c r => p c && all_chars p r
  end.

(** [s.isnumeric()]: at least one character, and all of them numeric. *)
Definition isnumeric (s : string) : bool :=
  match s with
  | "" => false
  | _ => all_chars isnumeric_ch s
  end.

Fixpoint lstrip (s : string) : string :=
  match s with
  | "" => ""
  | String c r => if isspace_ch c then lstrip r else s
  end.

Fixpoint rstrip (s : string) : string :=
  match s with
  | "" => ""
  | String c r =>
      match rstrip r with
      | "" => if isspace_ch c then "" else String c ""
      | r' => String c r'
      end
  end.

Definition strip (s : string) : string := rstrip (lstrip s).

(** [s.split(" ")]: one token per separator plus one; empty tokens are
    kept, and the empty string splits into one empty token. *)
Fixpoint split_space (s : string) : list string :=
  match s with
  | "" => [""]
  | String c r =>
      if Ascii.eqb c " " then "" :: split_space r
      else match split_space r with
           | t :: ts => String c t :: ts
           | [] => [String c ""]
           end
  end.

(** [s.removeprefix(p)] *)
Definition removeprefix (p s : string) : string :=
  if prefix p s then substring (length p) (length s - length p) s else s.

(** [p in s] on strings *)
Fixpoint contains (p s : string) : bool :=
  prefix p s ||
  match s with
  | "" => false
  | String _ r => contains p r
  end.

(** [x in l] on a list of strings, also used for [case "a" | "b"]. *)
Definition in_list (x : string) (l : list string) : bool :=
  existsb (String.eqb x) l.

(** [str(z)] for an [int] *)
Definition str_int (z : Z) : string := NilEmpty.string_of_int (Z.to_int z).

(** Value of a string of decimal digits, [None] when the string is empty
    or holds anything else. *)
Fixpoint digits_value (acc : Z) (s : string) : option Z :=
  match s with
  | "" => Some acc
  | String c r =>
      if isnumeric_ch c
      then digits_value (10 * acc + Z.of_nat (nat_of_ascii c - 48)) r
      else None
  end.

End Py.
Import Py.

(** ** Values, state and the effect monad *)

(** [sec] starts as the [int] 0 and becomes a [float] at the first
    addition. *)
Inductive number : Type :=
  | Int (z : Z)
  | Float (q : Q).

(** What [parse_time] returns: its argument, or the seconds. *)
Inductive pyval : Type :=
  | PStr (s : string)
  | PNum (n : number).

Inductive exn : Type := IndexError | ValueError | FileNotFoundError.

Inductive outcome (A : Type) : Type :=
  | Ok (a : A)
  | Raised (e : exn)
  | Exited (code : Z).
Arguments Ok {A} a.
Arguments Raised {A} e.
Arguments Exited {A} code.

Record state : Type := mkState {
  target : list string;                (* arguments of target.write *)
  alias_files : list (string * string); (* files written for Alias *)
  stdout : list string;                (* arguments of print *)
  is_pidfile : Z;
  has_type : bool
}.

Definition init : state := mkState [] [] [] 0 false.

Definition M (A : Type) : Type := state -> outcome A * state.

Definition ret {A} (a : A) : M A := fun st => (Ok a, st).

Definition bind {A B} (m : M A) (k : A -> M B) : M B :=
  fun st =>
    match m st with
    | (Ok a, st') => k a st'
    | (Raised e, st') => (Raised e, st')
    | (Exited c, st') => (Exited c, st')
    end.

Notation "x <- m ;; k" := (bind m (fun x => k))
  (at level 61, m at next level, right associativity).
Notation "m ;; k" := (bind m (fun _ => k))
  (at level 61, right associativity).

Definition raise {A} (e : exn) : M A := fun st => (Raised e, st).
Definition os_exit {A} (code : Z) : M A := fun st => (Exited code, st).

(** The state after the strings [l] went to [target.write]. *)
Definition emit (l : list string) (st : state) : state :=
  mkState (target st ++ l) (alias_files st) (stdout st)
          (is_pidfile st) (has_type st).

Definition write (s : string) : M unit := fun st => (Ok tt, emit [s] st).

Definition print (s : string) : M unit := fun st =>
  (Ok tt, mkState (target st) (alias_files st) (stdout st ++ [s])
                  (is_pidfile st) (has_type st)).

Definition set_is_pidfile (n : Z) : M unit := fun st =>
  (Ok tt, mkState (target st) (alias_files st) (stdout st) n (has_type st)).

Definition set_has_type (b : bool) : M unit := fun st =>
  (Ok tt, mkState (target st) (alias_files st) (stdout st) (is_pidfile st) b).

Definition get {A} (f : state -> A) : M A := fun st => (Ok (f st), st).

(** [with open(name, "w") as temp: temp.write(content)]; [open] raises
    on the empty name, any other name is taken to be writable.  What is
    kept is the sequence of files opened and written; a name that is
    the path of the output file or of an earlier alias is outside what
    this records. *)
Definition write_file (name content : string) : M unit := fun st =>
  match name with
  | "" => (Raised FileNotFoundError, st)
  | _ => (Ok tt, mkState (target st) (alias_files st ++ [(name, content)])
                         (stdout st) (is_pidfile st) (has_type st))
  end.

(** [for x in l: body x] *)
Fixpoint for_each {A} (body : A -> M unit) (l : list A) : M unit :=
  match l with
  | [] => ret tt
  | x :: r => body x ;; for_each body r
  end.

(** Exit status of the process. *)
Definition exit_status {A} (o : outcome A) : Z :=
  match o with
  | Ok _ => 0
  | Raised _ => 1
  | Exited c => c
  end.

(** What the script takes from outside: the command line, the platform's
    [signal.Signals] table and [str()] on a float. *)
Record host : Type := mkHost {
  quiet : bool;
  unitfile : string;
  signals : list (string * Z);
  float_str : Q -> string
}.

Definition systemd_ref_map : list string :=
  [ "Documentation"; "Type"; "Description"; "Wants"; "Requires";
    "Requisite"; "BindsTo"; "PartOf"; "Upholds"; "Before"; "After";
    "OnSuccess"; "StartLimitBurst"; "StartLimitIntervalSec"; "Alias";
    "WantedBy"; "RequiredBy"; "UpheldBy"; "PIDFile"; "ExecStart";
    "ExecStop"; "TimeoutStartSec"; "TimeoutStopSec"; "TimeoutSec";
    "Restart"; "EnvironmentFile"; "User"; "Group"; "WorkingDirectory";
    "LimitCORE"; "LimitDATA"; "LimitNOFILE"; "UtmpIdentifier";
    "KillSignal" ].

(** ** The time-span parser *)

Section TimeSpan.

Variable E : host.

Definition warning (message : string) : M unit :=
  if quiet E then ret tt else print (nl ++ "WARN: " ++ message).

(** The locals of the scanning loop of [parse_time]. *)
Record scan : Type := mkScan {
  mem : string;
  what : string;
  letter : bool;
  times : list (string * string)
}.

Definition scan_char (s : scan) (ch : ascii) : scan :=
  if Ascii.eqb ch " " then s
  else if isnumeric_ch ch then
    if negb (letter s)
    then mkScan (mem s ++ String ch "") (what s) (letter s) (times s)
    else mkScan (mem s ++ String ch "") "" false
                (times s ++ [(strip (what s), strip (mem s))])
  else if isalpha_ch ch
    then mkScan (mem s) (what s ++ String ch "") true (times s)
  else s.

Fixpoint scan_time (s : scan) (time : string) : scan :=
  match time with
  | "" => s
  | String ch r => scan_time (scan_char s ch) r
  end.

(** [float(mem)]; [mem] only ever holds digits, and [float] raises
    [ValueError] on the empty string. *)
Definition float (m : string) : M Q :=
  match m with
  | "" => raise ValueError
  | _ => match digits_value 0 m with
         | Some z => ret (inject_Z z)
         | None => raise ValueError
         end
  end.

(** [sec += x] for a float [x] *)
Definition add_float (sec : number) (x : Q) : number :=
  match sec with
  | Int z => Float (inject_Z z + x)
  | Float q => Float (q + x)
  end.

Definition mu_s : string :=
  String (ascii_of_nat 206) (String (ascii_of_nat 188) "s").

(** One turn of [for item in times: match item[0]]; the magnitude read
    is the variable [mem], as in the source, not [item[1]]. *)
Definition add_item (m : string) (sec : number) (item : string * string)
  : M number :=
  let tag := fst item in
  if in_list tag [mu_s; "us"; "usec"] then
    f <- float m ;; ret (add_float sec (f / inject_Z 1000000))
  else if in_list tag ["ms"; "msec"] then
    f <- float m ;; ret (add_float sec (f / inject_Z 1000))
  else if in_list tag ["s"; "sec"; "second"; "seconds"] then
    f <- float m ;; ret (add_float sec f)
  else if in_list tag ["m"; "min"; "minute"; "minutes"] then
    f <- float m ;; ret (add_float sec (f * inject_Z 60))
  else if in_list tag ["h"; "hr"; "hour"; "hours"] then
    f <- float m ;; ret (add_float sec (f * inject_Z 3600))
  else if in_list tag ["d"; "day"; "days"] then
    f <- float m ;; ret (add_float sec (f * inject_Z 86400))
  else if in_list tag ["w"; "week"; "weeks"] then
    f <- float m ;; ret (add_float sec (f * inject_Z 604800))
  else if in_list tag ["M"; "month"; "months"] then
    f <- float m ;; ret (add_float sec (f * inject_Z 2592000))
  else if in_list tag ["y"; "year"; "years"] then
    f <- float m ;; ret (add_float sec (f * inject_Z 31536000))
  else
    warning ("Can't parse given time: " ++ snd item ++ " " ++ tag) ;;
    ret sec.

Fixpoint add_items (m : string) (sec : number)
    (items : list (string * string)) : M number :=
  match items with
  | [] => ret sec
  | item :: r => sec' <- add_item m sec item ;; add_items m sec' r
  end.

Definition parse_time (time : string) : M pyval :=
  if isnumeric time then ret (PStr time)
  else
    let s := scan_time (mkScan "" "" false []) time in
    let items := (times s ++ [(strip (what s), strip (mem s))])%list in
    sec <- add_items (mem s) (Int 0) items ;;
    ret (PNum sec).

End TimeSpan.

(** ** The unit file reader *)

(** [for ch in line]: every [=] moves [memory] into [name]. *)
Fixpoint scan_assign (name memory : string) (line : string)
  : string * string :=
  match line with
  | "" => (name, memory)
  | String ch r =>
      if Ascii.eqb ch "="
      then scan_assign memory "" r
      else scan_assign name (memory ++ String ch "") r
  end.

Definition pair : Type := (string * string)%type.

Definition comment_prefix : string := "In systemd service unit comment: ".

(** One turn of [for line in file], on the lists [values] and
    [comments].  The lines are taken as the file object yields them,
    decoded and with their line ends; [line[0]] raises on an empty
    line, which a file never yields. *)
Definition read_line (acc : list pair * list string) (line : string)
  : exn + (list pair * list string) :=
  match line with
  | "" => inl IndexError
  | String c _ =>
      if Ascii.eqb c "#" || Ascii.eqb c ";" then
        inr (fst acc, (snd acc ++ [(comment_prefix ++ line)%string])%list)
      else if negb (Ascii.eqb c "[") then
        let '(name, memory) := scan_assign "" "" line in
        match name with
        | "" => inr acc
        | _ => inr ((fst acc ++ [(strip name, strip memory)])%list, snd acc)
        end
      else inr acc
  end.

Fixpoint read_lines (acc : list pair * list string) (lines : list string)
  : exn + (list pair * list string) :=
  match lines with
  | [] => inr acc
  | line :: r =>
      match read_line acc line with
      | inl e => inl e
      | inr acc' => read_lines acc' r
      end
  end.

Definition read_unit (lines : list string)
  : exn + (list pair * list string) :=
  read_lines ([], []) lines.

(** ** The key translator *)

Section Translator.

Variable E : host.

(** [f'{x}'] *)
Definition fmt (x : pyval) : string :=
  match x with
  | PStr s => s
  | PNum (Int z) => str_int z
  | PNum (Float q) => float_str E q
  end.

(** [if x:] *)
Definition truthy (x : pyval) : bool :=
  match x with
  | PStr "" => false
  | PStr _ => true
  | PNum (Int z) => negb (z =? 0)%Z
  | PNum (Float q) => negb (Qeq_bool q 0)
  end.

Definition dinit_signals : list string :=
  [ "HUP"; "INT"; "QUIT"; "KILL"; "USR1"; "USR2"; "TERM"; "CONT"; "STOP";
    "INFO" ].

Definition notify_message : string :=
  "This service use systemd activition protocol" ++ nl ++
  "Please change your service to use a proper ready notification protocol:"
  ++ nl ++ "https://skarnet.org/software/s6/notifywhenup.html".

Definition pidfile_comment : string :=
  "# Service is " ++ dq ++ "forking" ++ dq ++
  " type but doesn't have any pid-file!" ++ nl.

(** [case "Type": match val[1]] *)
Definition translate_type (v : string) : M unit :=
  if in_list v ["simple"; "exec"] then write ("type = process" ++ nl)
  else if v =? "forking" then
    write ("type = bgprocess" ++ nl) ;; set_is_pidfile 1
  else if v =? "oneshot" then write ("type = scripted" ++ nl)
  else if v =? "notify" then
    write ("type = process" ++ nl) ;; warning E notify_message
  else if v =? "dbus" then
    print ("'type=dbus' isn't supported by dinit!") ;; os_exit 1
  else ret tt.

(** [case "User"]: the scan of [values] for [Group] pairs. *)
Definition run_as (values : list pair) (v : string) : string :=
  fold_left
    (fun STR grp => if fst grp =? "Group" then v ++ ":" ++ snd grp else STR)
    values v.

(** [case "KillSignal"] *)
Definition translate_killsignal (v : string) : M unit :=
  SIG <-
    (let name := removeprefix "SIG" v in
     if in_list name dinit_signals then ret (PStr name)
     else
       warning E (v ++ " isn't recognized by Dinit, "
                    ++ "Trying to resolve it to number") ;;
       ret (fold_left
              (fun SIG knownsig =>
                 if v =? fst knownsig then PNum (Int (snd knownsig)) else SIG)
              (signals E) (PStr ""))) ;;
  if truthy SIG then
    (if negb (quiet E) then print (" ... Resolved to " ++ fmt SIG)
     else ret tt) ;;
    write ("term-signal = " ++ fmt SIG ++ nl)
  else
    if negb (quiet E)
    then print (" ... Cannot resolve specifed signal: " ++ v)
    else ret tt.

(** [case "TimeoutStartSec" | "TimeoutStopSec" | "TimeoutSec"] *)
Definition translate_timeout (k v : string) : M unit :=
  TIME <- (if v =? "infinity" then ret (PNum (Int 0))
           else parse_time E v) ;;
  if k =? "TimeoutSec" then
    write ("start-timeout = " ++ fmt TIME ++ nl ++
           "stop-timeout = " ++ fmt TIME ++ nl)
  else if contains "Start" k then
    write ("start-timeout = " ++ fmt TIME ++ nl)
  else
    write ("stop-timeout = " ++ fmt TIME ++ nl).

(** The body of [for val in values], with the whole list [values] at
    hand for the [User] rule. *)
Definition translate_pair (values : list pair) (val : pair) : M unit :=
  let k := fst val in
  let v := snd val in
  if negb (in_list k systemd_ref_map) then
    warning E ("Unknown/Unsupported key: " ++ k)
  else if k =? "Documentation" then ret tt
  else if k =? "Description" then write ("# Description: " ++ v ++ nl)
  else if k =? "Type" then translate_type v ;; set_has_type true
  else if k =? "ExecStart" then write ("command = " ++ v ++ nl)
  else if k =? "ExecStop" then write ("stop-command = " ++ v ++ nl)
  else if in_list k ["Wants"; "UpHolds"] then
    for_each (fun dep => write ("waits-for = " ++ dep ++ nl)) (split_space v)
  else if in_list k ["Requires"; "Requisite"; "BindsTo"; "PartOf"] then
    for_each (fun dep => write ("depends-on = " ++ dep ++ nl)) (split_space v)
  else if in_list k ["WantedBy"; "RequiredBy"; "UpheldBy"] then
    for_each (fun dep => write ("depends-ms = " ++ dep ++ nl)) (split_space v)
  else if k =? "Before" then
    for_each (fun dep => write ("before = " ++ dep ++ nl)) (split_space v) ;;
    warning E "Before in dinit has different functionality over systemd"
  else if k =? "After" then
    for_each (fun dep => write ("after = " ++ dep ++ nl)) (split_space v) ;;
    warning E "After in dinit has different functionality over systemd"
  else if k =? "Alias" then
    for_each
      (fun alias =>
         write_file alias ("depends-on = " ++ unitfile E ++ ".dinit" ++ nl))
      (split_space v) ;;
    print ("Service unit has " ++ dq ++ "Alias" ++ dq ++
           ", Creating another service for convering that")
  else if k =? "OnSuccess" then
    for_each (fun _ => write ("chain-to = " ++ v ++ nl)) (split_space v)
  else if k =? "StartLimitBurst" then
    write ("restart-limit-count = " ++ v ++ nl)
  else if k =? "StartLimitIntervalSec" then
    t <- parse_time E v ;;
    write ("restart-limit-interval = " ++ fmt t ++ nl)
  else if k =? "PIDFile" then
    write ("pid-file = " ++ v ++ nl) ;; set_is_pidfile 2
  else if k =? "EnvironmentFile" then write ("env-file = " ++ v ++ nl)
  else if k =? "Restart" then
    (if v =? "no" then write ("restart = no" ++ nl)
     else write ("restart = yes" ++ nl))
  else if in_list k ["TimeoutStartSec"; "TimeoutStopSec"; "TimeoutSec"] then
    translate_timeout k v
  else if k =? "User" then write ("run-as = " ++ run_as values v ++ nl)
  else if k =? "Group" then ret tt
  else if k =? "WorkingDirectory" then write ("working-dir = " ++ v ++ nl)
  else if k =? "LimitCORE" then write ("rlimit-core = " ++ v ++ nl)
  else if k =? "LimitNOFILE" then write ("rlimit-nofile = " ++ v ++ nl)
  else if k =? "LimitDATA" then write ("rlimit-data = " ++ v ++ nl)
  else if k =? "UtmpIdentifier" then write ("inittab-line = " ++ v ++ nl)
  else if k =? "KillSignal" then translate_killsignal v
  else print ("Not implemented key: " ++ k).

(** What follows the loop inside [with open(...) as target]. *)
Definition finish (comments : list string) : M unit :=
  ht <- get has_type ;;
  (if negb ht then write ("type = process" ++ nl) else ret tt) ;;
  for_each write comments ;;
  ip <- get is_pidfile ;;
  if (ip =? 1)%Z then
    warning E ("Service is " ++ dq ++ "forking" ++ dq ++
               " type but doesn't have any pid-file!, See Usage.md") ;;
    write pidfile_comment
  else ret tt.

Definition translate_all (values : list pair) : M unit :=
  for_each (translate_pair values) values.

Definition convert (values : list pair) (comments : list string) : M unit :=
  translate_all values ;; finish comments.

(** The whole script on the lines of the unit file. *)
Definition main (lines : list string) : M unit :=
  match read_unit lines with
  | inl e => raise e
  | inr (values, comments) =>
      convert values comments ;;
      print (nl ++ "Converting service unit to dinit service is completed.") ;;
      print ("It's HIGHLY recommended to modify this generated file "
             ++ "to fit your needs") ;;
      print "Done!"
  end.

End Translator.

(** ** Vocabulary of the statements *)

(** The values of the pairs with key [k], in file order. *)
Definition keyed (k : string) (values : list pair) : list string :=
  map snd (filter (fun p => fst p =? k) values).

Definition has_key (k : string) (values : list pair) : bool :=
  existsb (fun p => fst p =? k) values.

Definition is_run_as (s : string) : bool := prefix "run-as = " s.

(** A string of decimal digits, at least one. *)
Definition only_digits (s : string) : bool :=
  negb (s =? "") &&
  all_chars (fun c => existsb (Ascii.eqb c)
                        (list_ascii_of_string "0123456789")) s.

(** What [finish] writes, from the flags the loop left. *)
Definition trailer (st : state) (comments : list string) : list string :=
  ((if has_type st then [] else [("type = process" ++ nl)%string]) ++
   comments ++
   (if (is_pidfile st =? 1)%Z then [pidfile_comment] else []))%list.

(** A host for the examples: diagnostics on, two platform signals, and
    whole floats printed as Python prints them below 1e16. *)
Definition sample_host : host :=
  mkHost false "foo.service" [("SIGPIPE", 13%Z); ("SIGALRM", 14%Z)]
         (fun q => str_int (Qnum q / Zpos (Qden q)) ++ ".0").

(** The line the [User] rule writes for the value [u]. *)
Definition run_as_line (values : list pair) (u : string) : string :=
  "run-as = " ++ run_as values u ++ nl.

(** A text without [=]. *)
Definition no_equals (s : string) : bool :=
  all_chars (fun ch => negb (Ascii.eqb ch "=")) s.

(** *** Relations between the states before and after a piece of the
    script

    [respects R m]: whatever way [m] ends, the state it leaves is
    related by [R] to the one it started from.  A [Frame] is such a
    relation that composes along a run and that printing and writing
    an alias file respect. *)

Definition respects (R : state -> state -> Prop) {A} (m : M A) : Prop :=
  forall st, R st (snd (m st)).

Class Frame (R : state -> state -> Prop) : Prop := {
  frame_refl : forall st, R st st;
  frame_trans : forall a b c, R a b -> R b c -> R a c;
  frame_print : forall s, respects R (print s);
  frame_write_file : forall n c, respects R (write_file n c)
}.

(** The flags, away from [Type] pairs: [has_type] stays unset and
    [is_pidfile] does not become 1. *)
Definition keeps_flags (st st' : state) : Prop :=
  (has_type st = false -> has_type st' = false) /\
  (is_pidfile st <> 1%Z -> is_pidfile st' <> 1%Z).

(** The [run-as] lines of the target, away from [User] pairs. *)
Definition keeps_run_as (st st' : state) : Prop :=
  filter is_run_as (target st') = filter is_run_as (target st).

(** The only exit code is 1. *)
Definition exits_one {A} (m : M A) : Prop :=
  forall st c, fst (m st) = Exited c -> c = 1%Z.

(** *** Unit files of the examples *)

Definition dbus_unit : list string :=
  ["ExecStart=/usr/bin/foo" ++ nl; "Type=dbus" ++ nl; "# note" ++ nl;
   "User=alice" ++ nl].

Definition pidfile_first_unit : list string :=
  ["PIDFile=/run/x.pid" ++ nl; "Type=forking" ++ nl].

Definition untyped_unit : list string :=
  ["# web server" ++ nl; "[Service]" ++ nl; "ExecStart=/usr/bin/foo" ++ nl].

Definition idle_unit : list string := ["Type=idle" ++ nl].

Definition alice_unit : list string :=
  ["Group=staff" ++ nl; "ExecStart=/usr/bin/foo" ++ nl; "User=alice" ++ nl].

Definition alice_values : list pair :=
  [("Group", "staff"); ("ExecStart", "/usr/bin/foo"); ("User", "alice")].

Definition dbus_alice_unit : list string :=
  ["Type=dbus" ++ nl; "User=alice" ++ nl; "Group=staff" ++ nl].

Definition dbus_alice_values : list pair :=
  [("Type", "dbus"); ("User", "alice"); ("Group", "staff")].

Definition raising_unit : list string :=
  ["User=alice" ++ nl; "Group=a" ++ nl; "Group=b" ++ nl;
   "TimeoutSec=min" ++ nl; "User=bob" ++ nl].

Definition raising_values : list pair :=
  [("User", "alice"); ("Group", "a"); ("Group", "b");
   ("TimeoutSec", "min"); ("User", "bob")].

Definition two_groups_unit : list string :=
  ["User=alice" ++ nl; "Group=staff" ++ nl; "User=bob" ++ nl;
   "Group=wheel" ++ nl].

Definition two_groups_values : list pair :=
  [("User", "alice"); ("Group", "staff"); ("User", "bob");
   ("Group", "wheel")].

(** *** Durations cut into segments *)

(** The numeric value of what [parse_time] adds up. *)
Definition number_value (n : number) : Q :=
  match n with
  | Int z => inject_Z z
  | Float q => q
  end.

(** The number a string of digits writes, 0 for any other string. *)
Definition digits_Z (d : string) : Z :=
  match digits_value 0 d with
  | Some z => z
  | None => 0%Z
  end.

(** Seconds per unit, read off the arms of [match item[0]]. *)
Definition seconds_per_unit (tag : string) : option Q :=
  if in_list tag [mu_s; "us"; "usec"] then Some (1 # 1000000)
  else if in_list tag ["ms"; "msec"] then Some (1 # 1000)
  else if in_list tag ["s"; "sec"; "second"; "seconds"] then Some 1
  else if in_list tag ["m"; "min"; "minute"; "minutes"] then Some 60
  else if in_list tag ["h"; "hr"; "hour"; "hours"] then Some 3600
  else if in_list tag ["d"; "day"; "days"] then Some 86400
  else if in_list tag ["w"; "week"; "weeks"] then Some 604800
  else if in_list tag ["M"; "month"; "months"] then Some 2592000
  else if in_list tag ["y"; "year"; "years"] then Some 31536000
  else None.

(** A tag outside the table counts for nothing. *)
Definition factor_of (tag : string) : Q :=
  match seconds_per_unit tag with
  | Some f => f
  | None => 0
  end.

Definition recognised (tag : string) : bool :=
  match seconds_per_unit tag with
  | Some _ => true
  | None => false
  end.

Definition is_float (n : number) : bool :=
  match n with
  | Int _ => false
  | Float _ => true
  end.

(** The tags of fractions of a second. *)
Definition sub_second (tag : string) : bool :=
  in_list tag [mu_s; "us"; "usec"; "ms"; "msec"].

(** Whole seconds per unit, 0 for a tag that is not of whole seconds. *)
Definition whole_factor (tag : string) : Z :=
  if in_list tag ["s"; "sec"; "second"; "seconds"] then 1
  else if in_list tag ["m"; "min"; "minute"; "minutes"] then 60
  else if in_list tag ["h"; "hr"; "hour"; "hours"] then 3600
  else if in_list tag ["d"; "day"; "days"] then 86400
  else if in_list tag ["w"; "week"; "weeks"] then 604800
  else if in_list tag ["M"; "month"; "months"] then 2592000
  else if in_list tag ["y"; "year"; "years"] then 31536000
  else 0.

Definition sum_whole (tags : list string) : Z :=
  fold_right (fun tag acc => (whole_factor tag + acc)%Z) 0%Z tags.

(** Up to 2^53 every integer is a float, and sums and products of
    such floats that stay within it are exact. *)
Definition exact_bound : Z := 9007199254740992.

Definition sum_factors (tags : list string) : Q :=
  fold_right (fun tag acc => factor_of tag + acc) 0 tags.

(** The tags of the table that are made of ASCII letters. *)
Definition ascii_tags : list string :=
  [ "us"; "usec"; "ms"; "msec"; "s"; "sec"; "second"; "seconds";
    "m"; "min"; "minute"; "minutes"; "h"; "hr"; "hour"; "hours";
    "d"; "day"; "days"; "w"; "week"; "weeks"; "M"; "month"; "months";
    "y"; "year"; "years" ].

(** The text without its spaces. *)
Fixpoint remove_spaces (s : string) : string :=
  match s with
  | "" => ""
  | String c r =>
      if Ascii.eqb c " " then remove_spaces r else String c (remove_spaces r)
  end.

(** A segment: digits, at least one, then letters, at least one. *)
Definition segment_ok (seg : string * string) : bool :=
  only_digits (fst seg) &&
  negb (snd seg =? "") && all_chars isalpha_ch (snd seg).

Definition segments_text (segs : list (string * string)) : string :=
  fold_right (fun seg acc => fst seg ++ snd seg ++ acc) "" segs.

Definition all_digits (segs : list (string * string)) : string :=
  fold_right (fun seg acc => fst seg ++ acc) "" segs.

(** *** Lines of the unit file *)

(** [line[0] == "#" or line[0] == ";"] *)
Definition is_comment_line (line : string) : bool :=
  match line with
  | "" => false
  | String c _ => Ascii.eqb c "#" || Ascii.eqb c ";"
  end.

(** A line that is scanned for [=]: not a comment, not a section. *)
Definition is_scanned_line (line : string) : bool :=
  match line with
  | "" => false
  | String c _ =>
      negb (Ascii.eqb c "#" || Ascii.eqb c ";") && negb (Ascii.eqb c "[")
  end.

(** [" ".join(l)] *)
Fixpoint join_space (l : list string) : string :=
  match l with
  | [] => ""
  | [t] => t
  | t :: r => t ++ " " ++ join_space r
  end.

Fixpoint count_spaces (s : string) : nat :=
  match s with
  | "" => 0%nat
  | String c r => ((if Ascii.eqb c " " then 1 else 0) + count_spaces r)%nat
  end.

(** *** Tables of the rules that copy the value *)

(** Keys whose rule writes one line [name = value]. *)
Definition direct_keys : list (string * string) :=
  [ ("ExecStart", "command"); ("ExecStop", "stop-command");
    ("StartLimitBurst", "restart-limit-count"); ("PIDFile", "pid-file");
    ("EnvironmentFile", "env-file"); ("WorkingDirectory", "working-dir");
    ("LimitCORE", "rlimit-core"); ("LimitNOFILE", "rlimit-nofile");
    ("LimitDATA", "rlimit-data"); ("UtmpIdentifier", "inittab-line") ].

(** Keys whose rule writes one line [name = token] per token. *)
Definition list_keys : list (string * string) :=
  [ ("Wants", "waits-for"); ("Requires", "depends-on");
    ("Requisite", "depends-on"); ("BindsTo", "depends-on");
    ("PartOf", "depends-on"); ("WantedBy", "depends-ms");
    ("RequiredBy", "depends-ms"); ("UpheldBy", "depends-ms");
    ("Before", "before"); ("After", "after") ].

(** Service types and what they become. *)
Definition type_table : list (string * string) :=
  [ ("simple", "process"); ("exec", "process"); ("forking", "bgprocess");
    ("oneshot", "scripted"); ("notify", "process") ].

(** The keys whose value goes through [parse_time]. *)
Definition time_keys : list string :=
  ["StartLimitIntervalSec"; "TimeoutStartSec"; "TimeoutStopSec"; "TimeoutSec"].

(** The tokens before the first empty one. *)
Fixpoint until_empty (tokens : list string) : list string :=
  match tokens with
  | [] => []
  | t :: r => match t with "" => [] | _ => t :: until_empty r end
  end.

(** *** The flags as functions of the pairs *)

(** The tri-state after one more pair. *)
Definition pid_step (s : Z) (val : pair) : Z :=
  if (fst val =? "Type") && (snd val =? "forking") then 1%Z
  else if fst val =? "PIDFile" then 2%Z
  else s.

Definition pid_state (values : list pair) : Z := fold_left pid_step values 0%Z.

(** The pairs at which a run can end before its last line. *)
Definition may_abort (val : pair) : bool :=
  in_list (fst val)
    ["Alias"; "StartLimitIntervalSec"; "TimeoutStartSec"; "TimeoutStopSec";
     "TimeoutSec"]
  || ((fst val =? "Type") && (snd val =? "dbus")).

(** Pieces of the script that always end normally. *)
Definition succeeds {A} (m : M A) : Prop :=
  forall st, exists a, fst (m st) = Ok a.

(** Both flags as they were. *)
Definition same_flags (st st' : state) : Prop :=
  is_pidfile st' = is_pidfile st /\ has_type st' = has_type st.

(** ** Laws of the effect monad *)

Lemma emit_nil (st : state) : emit [] st = st.
Proof. destruct st; unfold emit; simpl. now rewrite app_nil_r. Qed.

Lemma emit_emit (l1 l2 : list string) (st : state) :
  emit l2 (emit l1 st) = emit (l1 ++ l2) st.
Proof. unfold emit; simpl. now rewrite app_assoc. Qed.

Lemma for_each_app {A} (body : A -> M unit) (l1 l2 : list A) (st : state) :
  for_each body (l1 ++ l2) st = (for_each body l1 ;; for_each body l2) st.
Proof.
  revert st; induction l1 as [|x r IH]; intro st; simpl.
  - reflexivity.
  - unfold bind. destruct (body x st) as [[[]|e|c] st1]; [apply IH | reflexivity ..].
Qed.

Lemma for_each_write (f : string -> string) (l : list string) (st : state) :
  for_each (fun x => write (f x)) l st = (Ok tt, emit (map f l) st).
Proof.
  revert st; induction l as [|x r IH]; intro st; simpl.
  - now rewrite emit_nil.
  - unfold bind, write. rewrite IH, emit_emit. reflexivity.
Qed.

Lemma for_each_write_id (l : list string) (st : state) :
  for_each write l st = (Ok tt, emit l st).
Proof.
  rewrite <- (map_id l) at 2. apply (for_each_write (fun x => x)).
Qed.

(** ** What every step of the script respects *)

Section Respects.

Context {R : state -> state -> Prop} `{Frame R}.
Variable E : host.

Lemma respects_ret {A} (a : A) : respects R (ret a).
Proof. intro st. apply frame_refl. Qed.

Lemma respects_raise {A} (e : exn) : respects R (@raise A e).
Proof. intro st. apply frame_refl. Qed.

Lemma respects_os_exit {A} (c : Z) : respects R (@os_exit A c).
Proof. intro st. apply frame_refl. Qed.

Lemma respects_get {A} (f : state -> A) : respects R (get f).
Proof. intro st. apply frame_refl. Qed.

Lemma respects_bind {A B} (m : M A) (k : A -> M B) :
  respects R m -> (forall a, respects R (k a)) -> respects R (bind m k).
Proof.
  intros Hm Hk st. unfold bind. specialize (Hm st).
  destruct (m st) as [[a|e|c] st1]; simpl in *; auto.
  eapply frame_trans; [exact Hm | apply Hk].
Qed.

Lemma respects_for_each {A} (body : A -> M unit) (l : list A) :
  (forall x, In x l -> respects R (body x)) -> respects R (for_each body l).
Proof.
  induction l as [|x r IH]; intro Hb; simpl.
  - apply respects_ret.
  - apply respects_bind.
    + apply Hb. now left.
    + intros _. apply IH. intros y Hy. apply Hb. now right.
Qed.

Lemma respects_warning (msg : string) : respects R (warning E msg).
Proof.
  unfold warning. destruct (quiet E); [apply respects_ret | apply frame_print].
Qed.

Lemma respects_float (m : string) : respects R (float m).
Proof.
  unfold float. destruct m; [apply respects_raise|].
  destruct (digits_value _ _); [apply respects_ret | apply respects_raise].
Qed.

Lemma respects_add_item (m : string) (sec : number) (item : string * string) :
  respects R (add_item E m sec item).
Proof.
  unfold add_item.
  repeat match goal with
         | |- respects _ (if ?b then _ else _) => destruct b
         end;
    apply respects_bind;
    auto using respects_float, respects_warning, respects_ret.
Qed.

Lemma respects_add_items (m : string) (items : list (string * string)) :
  forall sec, respects R (add_items E m sec items).
Proof.
  induction items as [|item r IH]; intro sec; simpl.
  - apply respects_ret.
  - apply respects_bind; [apply respects_add_item | auto].
Qed.

Lemma respects_parse_time (time : string) : respects R (parse_time E time).
Proof.
  unfold parse_time. destruct (isnumeric time); [apply respects_ret|].
  apply respects_bind; [apply respects_add_items | intro; apply respects_ret].
Qed.

End Respects.

(** *** The two frames *)

#[export] Instance keeps_flags_frame : Frame keeps_flags.
Proof.
  split.
  - intro st; split; auto.
  - intros a b c [H1 H2] [H3 H4]; split; auto.
  - intros s st; split; auto.
  - intros n c st. unfold write_file. destruct n; split; auto.
Qed.

Lemma flags_write (s : string) : respects keeps_flags (write s).
Proof. intro st; split; auto. Qed.

Lemma flags_set_is_pidfile_2 : respects keeps_flags (set_is_pidfile 2).
Proof. intro st; split; simpl; auto. discriminate. Qed.

#[export] Instance keeps_run_as_frame : Frame keeps_run_as.
Proof.
  split; unfold keeps_run_as.
  - intro st. reflexivity.
  - intros a b c H1 H2. congruence.
  - intros s st. reflexivity.
  - intros n c st. unfold write_file. destruct n; reflexivity.
Qed.

Lemma run_as_write (s : string) :
  is_run_as s = false -> respects keeps_run_as (write s).
Proof.
  intros Hs st. unfold keeps_run_as; simpl.
  rewrite filter_app; simpl. rewrite Hs. apply app_nil_r.
Qed.

Lemma run_as_set_is_pidfile (n : Z) : respects keeps_run_as (set_is_pidfile n).
Proof. intro st. reflexivity. Qed.

Lemma run_as_set_has_type (b : bool) : respects keeps_run_as (set_has_type b).
Proof. intro st. reflexivity. Qed.

(** Walks through a piece of the script, one construct at a time; the
    branches that contradict a hypothesis on the key are closed as they
    open. *)
Ltac respects_tac :=
  repeat first
    [ apply respects_ret | apply respects_raise | apply respects_os_exit
    | apply respects_get | apply frame_print | apply frame_write_file
    | apply respects_warning | apply respects_parse_time
    | apply flags_write | apply flags_set_is_pidfile_2
    | apply run_as_set_is_pidfile | apply run_as_set_has_type
    | apply run_as_write; reflexivity
    | apply respects_bind; [| intros ?]
    | apply respects_for_each; intros ? _
    | match goal with
      | |- respects _ (if ?b then _ else _) =>
          destruct b eqn:?; try congruence
      end ].

Section Steps.

Variable E : host.
Variable values : list pair.

Lemma translate_pair_keeps_flags (val : pair) :
  (fst val =? "Type") = false ->
  respects keeps_flags (translate_pair E values val).
Proof.
  destruct val as [k v]; cbn [fst snd]; intro Hk.
  unfold translate_pair, translate_timeout, translate_killsignal;
    cbn [fst snd].
  respects_tac.
Qed.

Lemma translate_pair_keeps_run_as (val : pair) :
  (fst val =? "User") = false ->
  respects keeps_run_as (translate_pair E values val).
Proof.
  destruct val as [k v]; cbn [fst snd]; intro Hk.
  unfold translate_pair, translate_timeout, translate_killsignal,
    translate_type; cbn [fst snd].
  respects_tac.
Qed.

End Steps.

(** ** The loop over the pairs and the end of the run *)

Section Run.

Variable E : host.

Lemma finish_spec (comments : list string) (st : state) :
  fst (finish E comments st) = Ok tt /\
  target (snd (finish E comments st)) = (target st ++ trailer st comments)%list.
Proof.
  unfold finish, trailer, bind, get, warning, write.
  destruct (has_type st); simpl; rewrite for_each_write_id; simpl;
    destruct (is_pidfile st =? 1)%Z; destruct (quiet E); simpl;
    rewrite <- ?app_assoc; simpl; rewrite ?app_nil_r; auto.
Qed.

(** The run in terms of its loop: a loop that ends normally is followed
    by the trailer, any other end of the loop is the end of the run. *)
Lemma main_spec (lines : list string) (values : list pair)
    (comments : list string) :
  read_unit lines = inr (values, comments) ->
  match translate_all E values init with
  | (Ok _, st) =>
      fst (main E lines init) = Ok tt /\
      target (snd (main E lines init))
      = (target st ++ trailer st comments)%list
  | (o, st) => main E lines init = (o, st)
  end.
Proof.
  intro Hr. unfold main, convert. rewrite Hr.
  destruct (translate_all E values init) as [o st] eqn:Hl.
  unfold bind. rewrite Hl.
  destruct o as [[]|e|c]; auto.
  destruct (finish_spec comments st) as [Hf Ht].
  destruct (finish E comments st) as [o st1]; simpl in *; subst o.
  simpl. auto.
Qed.

Lemma has_key_false (k : string) (l : list pair) (x : pair) :
  has_key k l = false -> In x l -> (fst x =? k) = false.
Proof.
  unfold has_key. intros Hk Hx.
  destruct (fst x =? k) eqn:Hx'; auto.
  rewrite <- Hk. symmetry. apply existsb_exists. eauto.
Qed.

Lemma loop_keeps_flags (values l : list pair) :
  has_key "Type" l = false ->
  respects keeps_flags (for_each (translate_pair E values) l).
Proof.
  intro Hk. apply respects_for_each. intros x Hx.
  apply translate_pair_keeps_flags. eapply has_key_false; eauto.
Qed.

Lemma run_as_line_is_run_as (values : list pair) (u : string) :
  is_run_as (run_as_line values u) = true.
Proof.
  unfold is_run_as, run_as_line. simpl.
  now destruct (run_as values u ++ nl).
Qed.

(** The [User] rule writes one line, whatever the state. *)
Lemma translate_user (values : list pair) (u : string) (st : state) :
  translate_pair E values ("User", u) st
  = (Ok tt, emit [run_as_line values u] st).
Proof. reflexivity. Qed.

(** The [run-as] lines a loop adds are those of the [User] pairs it
    went through, in order: all of them if it ends normally. *)
Lemma loop_run_as (values l : list pair) :
  forall st,
  exists n,
    filter is_run_as (target (snd (for_each (translate_pair E values) l st)))
    = (filter is_run_as (target st)
       ++ map (run_as_line values) (firstn n (keyed "User" l)))%list /\
    (fst (for_each (translate_pair E values) l st) = Ok tt ->
     n = List.length (keyed "User" l)).
Proof.
  induction l as [|[k v] r IH]; intro st.
  - exists 0%nat. simpl. rewrite app_nil_r. auto.
  - simpl for_each. unfold keyed; simpl filter.
    destruct (k =? "User") eqn:Hk.
    + apply String.eqb_eq in Hk; subst k.
      unfold bind. rewrite translate_user.
      destruct (IH (emit [run_as_line values v] st)) as [n [Hn Hok]].
      exists (S n). split.
      * rewrite Hn. cbn [emit target firstn map]. rewrite filter_app.
        cbn [filter]. rewrite run_as_line_is_run_as.
        rewrite <- app_assoc. reflexivity.
      * intro Ho. simpl. f_equal. auto.
    + pose proof (translate_pair_keeps_run_as E values (k, v) Hk st) as Hs.
      unfold bind.
      destruct (translate_pair E values (k, v) st) as [[[]|e|c] st1];
        simpl in Hs; unfold keeps_run_as in Hs.
      * destruct (IH st1) as [n [Hn Hok]]. exists n. split; auto.
        rewrite Hn, Hs. reflexivity.
      * exists 0%nat. simpl. rewrite app_nil_r. split; [auto | discriminate].
      * exists 0%nat. simpl. rewrite app_nil_r. split; [auto | discriminate].
Qed.

End Run.

(** The scan of the [User] rule ends on the last [Group] pair. *)
Lemma scan_groups (u : string) (values : list pair) :
  forall acc,
  fold_left
    (fun STR grp => if fst grp =? "Group" then u ++ ":" ++ snd grp else STR)
    values acc
  = match keyed "Group" values with
    | [] => acc
    | gs => u ++ ":" ++ last gs ""
    end.
Proof.
  induction values as [|[k g] r IH]; intro acc; simpl.
  - reflexivity.
  - rewrite IH. unfold keyed. simpl filter.
    destruct (k =? "Group"); simpl; [|reflexivity].
    destruct (map snd (filter (fun p => fst p =? "Group") r)); reflexivity.
Qed.

Lemma run_as_last_group (values : list pair) (u : string) :
  run_as values u
  = match keyed "Group" values with
    | [] => u
    | gs => u ++ ":" ++ last gs ""
    end.
Proof. apply scan_groups. Qed.

(** ** The only exit code is 1 *)

Section ExitCode.

Variable E : host.

Lemma exits_one_ret {A} (a : A) : exits_one (ret a).
Proof. intros st c; discriminate. Qed.

Lemma exits_one_raise {A} (e : exn) : exits_one (@raise A e).
Proof. intros st c; discriminate. Qed.

Lemma exits_one_os_exit {A} : exits_one (@os_exit A 1).
Proof. intros st c; simpl; congruence. Qed.

Lemma exits_one_get {A} (f : state -> A) : exits_one (get f).
Proof. intros st c; discriminate. Qed.

Lemma exits_one_write (s : string) : exits_one (write s).
Proof. intros st c; discriminate. Qed.

Lemma exits_one_print (s : string) : exits_one (print s).
Proof. intros st c; discriminate. Qed.

Lemma exits_one_set_is_pidfile (n : Z) : exits_one (set_is_pidfile n).
Proof. intros st c; discriminate. Qed.

Lemma exits_one_set_has_type (b : bool) : exits_one (set_has_type b).
Proof. intros st c; discriminate. Qed.

Lemma exits_one_write_file (n s : string) : exits_one (write_file n s).
Proof. intros st c. unfold write_file. destruct n; discriminate. Qed.

Lemma exits_one_bind {A B} (m : M A) (k : A -> M B) :
  exits_one m -> (forall a, exits_one (k a)) -> exits_one (bind m k).
Proof.
  intros Hm Hk st c. unfold bind. specialize (Hm st).
  destruct (m st) as [[a|e|c'] st1]; simpl in *.
  - apply Hk.
  - discriminate.
  - intro Hc. apply Hm. congruence.
Qed.

Lemma exits_one_for_each {A} (body : A -> M unit) (l : list A) :
  (forall x, exits_one (body x)) -> exits_one (for_each body l).
Proof.
  intro Hb. induction l as [|x r IH]; simpl.
  - apply exits_one_ret.
  - apply exits_one_bind; auto.
Qed.

Lemma exits_one_warning (msg : string) : exits_one (warning E msg).
Proof.
  unfold warning.
  destruct (quiet E); [apply exits_one_ret | apply exits_one_print].
Qed.

Lemma exits_one_float (m : string) : exits_one (float m).
Proof.
  unfold float. destruct m; [apply exits_one_raise|].
  destruct (digits_value _ _); [apply exits_one_ret | apply exits_one_raise].
Qed.

Lemma exits_one_add_item (m : string) (sec : number)
    (item : string * string) :
  exits_one (add_item E m sec item).
Proof.
  unfold add_item.
  repeat match goal with
         | |- exits_one (if ?b then _ else _) => destruct b
         end;
    apply exits_one_bind;
    auto using exits_one_float, exits_one_warning, exits_one_ret.
Qed.

Lemma exits_one_add_items (m : string) (items : list (string * string)) :
  forall sec, exits_one (add_items E m sec items).
Proof.
  induction items as [|item r IH]; intro sec; simpl.
  - apply exits_one_ret.
  - apply exits_one_bind; [apply exits_one_add_item | auto].
Qed.

Lemma exits_one_parse_time (time : string) : exits_one (parse_time E time).
Proof.
  unfold parse_time. destruct (isnumeric time); [apply exits_one_ret|].
  apply exits_one_bind; [apply exits_one_add_items|].
  intro; apply exits_one_ret.
Qed.

End ExitCode.

Ltac exits_tac :=
  repeat first
    [ apply exits_one_ret | apply exits_one_raise | apply exits_one_os_exit
    | apply exits_one_get | apply exits_one_write | apply exits_one_print
    | apply exits_one_set_is_pidfile | apply exits_one_set_has_type
    | apply exits_one_write_file | apply exits_one_warning
    | apply exits_one_parse_time
    | apply exits_one_bind; [| intros ?]
    | apply exits_one_for_each; intros ?
    | match goal with
      | |- exits_one (if ?b then _ else _) => destruct b
      end ].

Lemma translate_pair_exits_one (E : host) (values : list pair) (val : pair) :
  exits_one (translate_pair E values val).
Proof.
  destruct val as [k v].
  unfold translate_pair, translate_timeout, translate_killsignal,
    translate_type; cbn [fst snd].
  exits_tac.
Qed.

Lemma loop_exits_one (E : host) (values l : list pair) :
  exits_one (for_each (translate_pair E values) l).
Proof. apply exits_one_for_each. intro. apply translate_pair_exits_one. Qed.

(** ** Facts about the reader *)

Lemma str_app_assoc (a b c : string) : (a ++ b) ++ c = a ++ b ++ c.
Proof. induction a as [|x a IH]; simpl; [reflexivity | now rewrite IH]. Qed.

Lemma read_lines_total (lines : list string) :
  Forall (fun line => line <> "") lines ->
  forall acc, exists values comments,
    read_lines acc lines = inr (values, comments).
Proof.
  induction 1 as [|line r Hl _ IH]; intro acc; simpl.
  - destruct acc as [v c]. eauto.
  - destruct line as [|ch line]; [congruence|]. unfold read_line.
    destruct (Ascii.eqb ch "#" || Ascii.eqb ch ";"); [apply IH|].
    destruct (negb (Ascii.eqb ch "[")); [|apply IH].
    destruct (scan_assign "" "" (String ch line)) as [[|n name] memory];
      apply IH.
Qed.

Lemma read_lines_comments (P : string -> Prop) :
  (forall line, P (comment_prefix ++ line)) ->
  forall lines acc values comments,
    read_lines acc lines = inr (values, comments) ->
    Forall P (snd acc) -> Forall P comments.
Proof.
  intros HP. induction lines as [|line r IH]; intros acc values comments.
  - simpl. intros [= ->]. auto.
  - simpl. destruct (read_line acc line) as [e|acc'] eqn:Hl; [discriminate|].
    intros Hr Hacc. apply (IH _ _ _ Hr).
    unfold read_line in Hl. destruct line as [|ch line]; [discriminate|].
    destruct (Ascii.eqb ch "#" || Ascii.eqb ch ";").
    + injection Hl as <-. simpl. apply Forall_app.
      split; [assumption | constructor; [apply HP | constructor]].
    + destruct (negb (Ascii.eqb ch "[")).
      * destruct (scan_assign "" "" (String ch line)) as [[|n name] memory];
          injection Hl as <-; auto.
      * injection Hl as <-. auto.
Qed.

(** No relocated comment reads as a [run-as] line. *)
Lemma read_unit_comments_not_run_as (lines : list string)
    (values : list pair) (comments : list string) :
  read_unit lines = inr (values, comments) ->
  filter is_run_as comments = [].
Proof.
  intro Hr.
  assert (Forall (fun c => is_run_as c = false) comments) as Hc.
  { eapply read_lines_comments; [| exact Hr | constructor].
    intro line. reflexivity. }
  clear Hr. induction Hc as [|c r Hc _ IH]; simpl; [reflexivity|].
  now rewrite Hc.
Qed.

Lemma trailer_not_run_as (st : state) (comments : list string) :
  filter is_run_as comments = [] ->
  filter is_run_as (trailer st comments) = [].
Proof.
  intro Hc. unfold trailer. rewrite !filter_app, Hc.
  destruct (has_type st); destruct (is_pidfile st =? 1)%Z; reflexivity.
Qed.

Lemma count_occ_filter (p : string -> bool) (x : string) (l : list string) :
  p x = true ->
  count_occ string_dec l x = count_occ string_dec (filter p l) x.
Proof.
  intro Hx. induction l as [|y r IH]; simpl; [reflexivity|].
  destruct (string_dec y x) as [->|Hy].
  - rewrite Hx. simpl. destruct (string_dec x x); congruence.
  - destruct (p y); simpl; [|exact IH].
    destruct (string_dec y x); congruence.
Qed.

Lemma str_app_nil_r (a : string) : a ++ "" = a.
Proof. induction a; simpl; congruence. Qed.

(** Without [=], the text only grows [memory]. *)
Lemma scan_assign_tail (c : string) :
  no_equals c = true ->
  forall name memory, scan_assign name memory c = (name, memory ++ c).
Proof.
  induction c as [|ch r IH]; simpl; intros Hc name memory.
  - now rewrite str_app_nil_r.
  - apply andb_prop in Hc as [Hch Hr].
    destruct (Ascii.eqb ch "="); [discriminate|].
    rewrite IH by assumption. now rewrite str_app_assoc.
Qed.

(** At an [=], what was read since the previous one becomes the name. *)
Lemma scan_assign_segment (b : string) :
  no_equals b = true ->
  forall name memory rest,
    scan_assign name memory (b ++ String "=" rest)
    = scan_assign (memory ++ b) "" rest.
Proof.
  induction b as [|ch r IH]; simpl; intros Hb name memory rest.
  - now rewrite str_app_nil_r.
  - apply andb_prop in Hb as [Hch Hr].
    destruct (Ascii.eqb ch "="); [discriminate|].
    rewrite IH by assumption. now rewrite str_app_assoc.
Qed.

(** A line with exactly one [=] splits there. *)
Lemma scan_assign_one_equals (k v : string) :
  no_equals k = true -> no_equals v = true ->
  scan_assign "" "" (k ++ String "=" v) = (k, v).
Proof.
  intros Hk Hv. rewrite scan_assign_segment by assumption.
  now rewrite scan_assign_tail.
Qed.

(** With several [=], what is kept is what stands on each side of the
    last one, back to the [=] before it. *)
Lemma scan_assign_last (a b c : string) :
  no_equals b = true -> no_equals c = true ->
  forall name memory,
    scan_assign name memory (a ++ String "=" (b ++ String "=" c)) = (b, c).
Proof.
  intros Hb Hc. induction a as [|ch r IH]; intros name memory; simpl.
  - rewrite scan_assign_segment by assumption.
    now rewrite scan_assign_tail.
  - destruct (Ascii.eqb ch "="); apply IH.
Qed.

(** * Properties of the script *)

(** ** Time-span parser *)

(** C1.  [parse_time] does not return the sum of each segment's own
    magnitude times the factor of its tag.  The digits of all segments
    accumulate in one variable, [mem], which is never reset, and every
    segment is converted from it: "1h30m" gives 130 * 3600 + 130 * 60 =
    475800 where the sum of the segments is 5400, and "2d 12h" gives
    212 * 86400 + 212 * 3600 = 19080000 where it is 216000.  A string
    of one segment is converted as expected: "90s" gives 90. *)
Theorem parse_time_magnitudes_run_together (E : host) (st : state) :
  parse_time E "1h30m" st = (Ok (PNum (Float (inject_Z 475800))), st) /\
  parse_time E "2d 12h" st = (Ok (PNum (Float (inject_Z 19080000))), st) /\
  parse_time E "90s" st = (Ok (PNum (Float (inject_Z 90))), st).
Proof. repeat split. Qed.

Lemma digit_isnumeric_ch (c : ascii) :
  existsb (Ascii.eqb c) (list_ascii_of_string "0123456789") = true ->
  isnumeric_ch c = true.
Proof.
  simpl. intro H.
  repeat (apply orb_prop in H; destruct H as [H|H]);
    try discriminate; apply Ascii.eqb_eq in H; subst c; reflexivity.
Qed.

Lemma only_digits_isnumeric (s : string) :
  only_digits s = true -> isnumeric s = true.
Proof.
  unfold only_digits. intro H. apply andb_prop in H as [Hne Hd].
  assert (all_chars isnumeric_ch s = true) as Hall.
  { clear Hne. induction s as [|c r IH]; simpl in *; [reflexivity|].
    apply andb_prop in Hd as [Hc Hr].
    now rewrite (digit_isnumeric_ch c Hc), IH. }
  destruct s; [discriminate | exact Hall].
Qed.

(** C9.  On a string that consists only of decimal digits (one or
    more), [parse_time] returns the string itself, unconverted, and
    has no effect. *)
Theorem parse_time_digits_unchanged (E : host) (s : string) (st : state) :
  only_digits s = true ->
  parse_time E s st = (Ok (PStr s), st).
Proof.
  intro H. unfold parse_time. now rewrite (only_digits_isnumeric s H).
Qed.

Lemma parse_time_digits_unchanged_witness :
  only_digits "300" = true /\
  parse_time sample_host "300" init = (Ok (PStr "300"), init).
Proof.
  split; [reflexivity |].
  apply (parse_time_digits_unchanged sample_host "300" init). reflexivity.
Defined.

(** The empty string is not numeric: it goes through the scan, matches
    no tag and yields the integer 0. *)
Lemma parse_time_empty (E : host) (st : state) :
  fst (parse_time E "" st) = Ok (PNum (Int 0)).
Proof. destruct E as [[] u sg f]; reflexivity. Qed.

(** A tag without a magnitude makes [float] raise. *)
Lemma parse_time_tag_alone (E : host) (st : state) :
  parse_time E "min" st = (Raised ValueError, st).
Proof. reflexivity. Qed.

(** ** Unit file reader *)

(** C2.  The reader does not split a line at its first [=]: each [=]
    restarts the value and turns what was read since the previous [=]
    into the name.  The line [ExecStart=/usr/bin/foo --opt=1] yields the
    pair ("/usr/bin/foo --opt", "1"), not
    ("ExecStart", "/usr/bin/foo --opt=1"). *)
Theorem read_unit_splits_at_last_equals :
  read_unit ["ExecStart=/usr/bin/foo --opt=1" ++ nl]
  = inr ([("/usr/bin/foo --opt", "1")], []).
Proof. reflexivity. Qed.

(** ** Key translator *)

(** C3.  With the [PIDFile] pair before the [Type=forking] pair the
    tri-state ends at 1: the output has the [type = bgprocess] and
    [pid-file] lines and, after them, the comment about a missing
    pid-file. *)
Theorem pidfile_before_forking_warns (E : host) :
  read_unit pidfile_first_unit
  = inr ([("PIDFile", "/run/x.pid"); ("Type", "forking")], []) /\
  fst (main E pidfile_first_unit init) = Ok tt /\
  is_pidfile (snd (main E pidfile_first_unit init)) = 1%Z /\
  target (snd (main E pidfile_first_unit init))
  = ["pid-file = /run/x.pid" ++ nl; "type = bgprocess" ++ nl;
     pidfile_comment].
Proof. destruct E as [[] u sg f]; repeat split. Qed.

(** In the other order the comment is not written. *)
Lemma forking_before_pidfile_ok (E : host) :
  target (snd (main E ["Type=forking" ++ nl; "PIDFile=/run/x.pid" ++ nl] init))
  = ["type = bgprocess" ++ nl; "pid-file = /run/x.pid" ++ nl].
Proof. reflexivity. Qed.

(** C4.  A pair with key [UpHolds] is not translated: the table of known
    keys spells it [Upholds], so the pair is reported as unknown and
    skipped; a pair with key [Upholds] passes the table and reaches the
    last case, "Not implemented key".  Neither writes to the target. *)
Theorem upholds_not_translated (E : host) (values : list pair)
    (v : string) (st : state) :
  translate_pair E values ("UpHolds", v) st
  = warning E "Unknown/Unsupported key: UpHolds" st /\
  translate_pair E values ("Upholds", v) st
  = print "Not implemented key: Upholds" st /\
  target (snd (translate_pair E values ("UpHolds", v) st)) = target st /\
  target (snd (translate_pair E values ("Upholds", v) st)) = target st.
Proof.
  repeat split. unfold translate_pair, warning; simpl.
  now destruct (quiet E).
Qed.

(** A [Wants] pair gives one [waits-for] line per token, in order. *)
Lemma wants_waits_for (E : host) (values : list pair) (v : string)
    (st : state) :
  translate_pair E values ("Wants", v) st
  = (Ok tt,
     emit (map (fun dep => "waits-for = " ++ dep ++ nl) (split_space v)) st).
Proof.
  unfold translate_pair; simpl.
  apply (for_each_write (fun dep => "waits-for = " ++ dep ++ nl)).
Qed.

Lemma split_space_cons (s : string) :
  exists t ts, split_space s = t :: ts.
Proof.
  induction s as [|c r [t [ts IH]]]; simpl; [eauto|].
  destruct (Ascii.eqb c " "); [eauto|]. rewrite IH. eauto.
Qed.

(** The tokens of a value are one more than its spaces. *)
Lemma split_space_length (s : string) :
  List.length (split_space s) = S (count_spaces s).
Proof.
  induction s as [|c r IH]; simpl; [reflexivity|].
  destruct (split_space_cons r) as [t [ts Hs]]. rewrite Hs in *.
  destruct (Ascii.eqb c " "); simpl in *; now rewrite IH.
Qed.

(** C8.  An [OnSuccess] pair whose value splits into n tokens writes n
    [chain-to] lines, each with the whole value; n is the number of
    spaces of the value plus one, so two tokens give two lines. *)
Theorem onsuccess_whole_value (E : host) (values : list pair) (v : string)
    (st : state) :
  translate_pair E values ("OnSuccess", v) st
  = (Ok tt,
     emit (repeat ("chain-to = " ++ v ++ nl) (List.length (split_space v)))
          st) /\
  List.length (split_space v) = S (count_spaces v).
Proof.
  split; [| apply split_space_length].
  unfold translate_pair; simpl.
  rewrite (for_each_write (fun _ => "chain-to = " ++ v ++ nl)).
  now rewrite map_const.
Qed.

Lemma onsuccess_whole_value_witness :
  split_space "a.service b.service" = ["a.service"; "b.service"] /\
  translate_pair sample_host [] ("OnSuccess", "a.service b.service") init
  = (Ok tt,
     emit ["chain-to = a.service b.service" ++ nl;
           "chain-to = a.service b.service" ++ nl] init).
Proof.
  split; [reflexivity |].
  destruct (onsuccess_whole_value sample_host []
              "a.service b.service" init) as [Hrun Hlen].
  rewrite Hrun, Hlen. reflexivity.
Defined.

Lemma translate_dbus (E : host) (values : list pair) (st : state) :
  fst (translate_pair E values ("Type", "dbus") st) = Exited 1 /\
  target (snd (translate_pair E values ("Type", "dbus") st)) = target st.
Proof. split; reflexivity. Qed.

(** C5.  In a file with a [Type=dbus] pair the run does not end
    normally and its exit status is not 0.  What went to the target is
    what the pairs before that pair wrote: nothing for a later pair,
    no default type, no relocated comment, no pid-file comment.  When
    the pairs before it were all processed, the run ends at that pair
    by [os._exit(1)]. *)
Theorem type_dbus_terminates (E : host) (lines : list string)
    (pre post : list pair) (comments : list string) :
  read_unit lines = inr ((pre ++ ("Type", "dbus") :: post)%list, comments) ->
  exit_status (fst (main E lines init)) <> 0%Z /\
  target (snd (main E lines init))
  = target (snd (for_each
                   (translate_pair E (pre ++ ("Type", "dbus") :: post)%list)
                   pre init)) /\
  (fst (for_each (translate_pair E (pre ++ ("Type", "dbus") :: post)%list)
         pre init) = Ok tt ->
   fst (main E lines init) = Exited 1).
Proof.
  intro Hr. pose proof (main_spec E lines _ comments Hr) as Hm.
  unfold translate_all in Hm. rewrite for_each_app in Hm.
  unfold bind in Hm.
  pose proof (loop_exits_one E (pre ++ ("Type", "dbus") :: post) pre init)
    as Hc.
  destruct (for_each _ pre init) as [[[]|e|c] st1].
  - simpl for_each in Hm. unfold bind in Hm.
    destruct (translate_dbus E (pre ++ ("Type", "dbus") :: post) st1)
      as [Ho Ht].
    destruct (translate_pair _ _ _ st1) as [o st2]. simpl in Ho, Ht.
    subst o. rewrite Hm. simpl. repeat split; solve [discriminate | exact Ht].
  - rewrite Hm. simpl. repeat split; discriminate.
  - rewrite Hm. simpl. rewrite (Hc c eq_refl). repeat split; discriminate.
Qed.

Lemma type_dbus_terminates_witness :
  read_unit dbus_unit
  = inr (([("ExecStart", "/usr/bin/foo")] ++
          ("Type", "dbus") :: [("User", "alice")])%list,
         [comment_prefix ++ "# note" ++ nl]) /\
  exit_status (fst (main sample_host dbus_unit init)) <> 0%Z /\
  target (snd (main sample_host dbus_unit init))
  = ["command = /usr/bin/foo" ++ nl].
Proof.
  split; [reflexivity |].
  destruct (type_dbus_terminates sample_host dbus_unit
              [("ExecStart", "/usr/bin/foo")] [("User", "alice")]
              [comment_prefix ++ "# note" ++ nl] eq_refl) as [Hs [Ht _]].
  split; [exact Hs | exact Ht].
Defined.

(** A [Type] pair sets [has_type] whatever its value, [dbus] apart,
    also when the value matches no case and nothing is written. *)
Lemma type_sets_has_type (E : host) (values : list pair) (v : string)
    (st : state) :
  (v =? "dbus") = false ->
  fst (translate_pair E values ("Type", v) st) = Ok tt /\
  has_type (snd (translate_pair E values ("Type", v) st)) = true.
Proof.
  intro Hv. unfold translate_pair, translate_type; simpl.
  rewrite Hv. unfold bind, warning.
  repeat match goal with
         | |- context [if ?b then _ else _] => destruct b
         end; simpl; auto.
Qed.

(** C6, as the code has it.  In a file with no [Type] pair whose pairs
    are all processed, the target receives, after what the pairs wrote,
    the line [type = process] and then the relocated comments, and
    nothing else. *)
Theorem default_type_appended (E : host) (lines : list string)
    (values : list pair) (comments : list string) :
  read_unit lines = inr (values, comments) ->
  has_key "Type" values = false ->
  fst (translate_all E values init) = Ok tt ->
  target (snd (main E lines init))
  = (target (snd (translate_all E values init))
     ++ ["type = process" ++ nl]%string ++ comments)%list.
Proof.
  intros Hr Hk Hok. pose proof (main_spec E lines _ comments Hr) as Hm.
  pose proof (loop_keeps_flags E values values Hk init) as [Hh Hp].
  fold (translate_all E values) in Hh, Hp.
  destruct (translate_all E values init) as [o st]. simpl in *. subst o.
  destruct Hm as [_ ->]. unfold trailer.
  rewrite (Hh eq_refl).
  destruct (is_pidfile st =? 1)%Z eqn:Hz.
  - apply Z.eqb_eq in Hz. exfalso. apply Hp; [discriminate | exact Hz].
  - now rewrite app_nil_r.
Qed.

Lemma default_type_appended_witness :
  read_unit untyped_unit
  = inr ([("ExecStart", "/usr/bin/foo")],
         [comment_prefix ++ "# web server" ++ nl]) /\
  has_key "Type" [("ExecStart", "/usr/bin/foo")] = false /\
  fst (translate_all sample_host [("ExecStart", "/usr/bin/foo")] init)
  = Ok tt /\
  target (snd (main sample_host untyped_unit init))
  = ["command = /usr/bin/foo" ++ nl; "type = process" ++ nl;
     comment_prefix ++ "# web server" ++ nl].
Proof.
  do 3 (split; [reflexivity |]).
  apply (default_type_appended sample_host untyped_unit
           [("ExecStart", "/usr/bin/foo")]
           [comment_prefix ++ "# web server" ++ nl]); reflexivity.
Defined.

(** C6, as stated, fails: [Type=idle] matches no case of the type rule,
    yet it sets [has_type], and no [type = process] line is written. *)
Lemma unrecognised_type_no_default :
  read_unit idle_unit = inr ([("Type", "idle")], []) /\
  translate_type sample_host "idle" init = (Ok tt, init) /\
  fst (main sample_host idle_unit init) = Ok tt /\
  ~ In ("type = process" ++ nl) (target (snd (main sample_host idle_unit init))).
Proof. repeat split. intros []. Qed.

(** The [run-as] lines of a whole run: those of the [User] pairs the
    loop went through, all of them when the run ends normally. *)
Lemma main_run_as (E : host) (lines : list string) (values : list pair)
    (comments : list string) :
  read_unit lines = inr (values, comments) ->
  exists n,
    filter is_run_as (target (snd (main E lines init)))
    = map (run_as_line values) (firstn n (keyed "User" values)) /\
    (fst (main E lines init) = Ok tt ->
     n = List.length (keyed "User" values)).
Proof.
  intro Hr. pose proof (main_spec E lines _ comments Hr) as Hm.
  destruct (loop_run_as E values values init) as [n [Hn Hok]].
  fold (translate_all E values) in Hn, Hok.
  exists n.
  destruct (translate_all E values init) as [[[]|e|c] st]; simpl in *.
  - destruct Hm as [_ ->]. rewrite filter_app, Hn.
    rewrite trailer_not_run_as
      by (eapply read_unit_comments_not_run_as; eassumption).
    rewrite app_nil_r. auto.
  - rewrite Hm. simpl. split; [exact Hn | discriminate].
  - rewrite Hm. simpl. split; [exact Hn | discriminate].
Qed.

Lemma run_as_line_last_group (values : list pair) (u : string) :
  keyed "Group" values <> [] ->
  run_as_line values u
  = "run-as = " ++ u ++ ":" ++ last (keyed "Group" values) "" ++ nl.
Proof.
  intro Hg. unfold run_as_line. rewrite run_as_last_group.
  destruct (keyed "Group" values) as [|g gs]; [congruence|].
  now rewrite str_app_assoc.
Qed.

Lemma translate_group (E : host) (values : list pair) (g : string)
    (st : state) :
  translate_pair E values ("Group", g) st = (Ok tt, st).
Proof. reflexivity. Qed.

(** C7, as the code has it.  In a file with one [User] pair, of value
    u, and one [Group] pair, of value g, in whichever order, a run that
    ends normally (every pair was processed) has
    written the line [run-as = u:g] exactly once, and no other [run-as]
    line; a [Group] pair itself writes nothing.  With u = alice and
    g = staff this is the line [run-as = alice:staff]. *)
Theorem user_group_run_as_once (E : host) (lines : list string)
    (values : list pair) (comments : list string) (u g : string) :
  read_unit lines = inr (values, comments) ->
  keyed "User" values = [u] ->
  keyed "Group" values = [g] ->
  fst (main E lines init) = Ok tt ->
  count_occ string_dec (target (snd (main E lines init)))
            ("run-as = " ++ u ++ ":" ++ g ++ nl) = 1%nat /\
  filter is_run_as (target (snd (main E lines init)))
  = ["run-as = " ++ u ++ ":" ++ g ++ nl] /\
  (forall g' st, translate_pair E values ("Group", g') st = (Ok tt, st)).
Proof.
  intros Hr Hu Hg Hok.
  destruct (main_run_as E lines values comments Hr) as [n [Hn Hlen]].
  rewrite (Hlen Hok), Hu in Hn. simpl in Hn.
  rewrite run_as_line_last_group in Hn by (rewrite Hg; discriminate).
  rewrite Hg in Hn. simpl last in Hn.
  split; [| split; [exact Hn | intros; apply translate_group]].
  rewrite (count_occ_filter is_run_as).
  - rewrite Hn. simpl. now destruct (string_dec _ _).
  - unfold is_run_as. simpl. now destruct (u ++ _).
Qed.

(** C7, as stated, fails: a [Type=dbus] pair before the [User] pair
    ends the run at once, and no [run-as] line is written. *)
Lemma dbus_before_user_no_run_as :
  read_unit dbus_alice_unit = inr (dbus_alice_values, []) /\
  keyed "User" dbus_alice_values = ["alice"] /\
  keyed "Group" dbus_alice_values = ["staff"] /\
  fst (main sample_host dbus_alice_unit init) = Exited 1 /\
  count_occ string_dec (target (snd (main sample_host dbus_alice_unit init)))
            ("run-as = alice:staff" ++ nl) = 0%nat.
Proof. repeat split. Qed.

Lemma user_group_run_as_once_witness :
  read_unit alice_unit = inr (alice_values, []) /\
  keyed "User" alice_values = ["alice"] /\
  keyed "Group" alice_values = ["staff"] /\
  fst (main sample_host alice_unit init) = Ok tt /\
  count_occ string_dec (target (snd (main sample_host alice_unit init)))
            ("run-as = alice:staff" ++ nl) = 1%nat.
Proof.
  do 4 (split; [reflexivity |]).
  apply (user_group_run_as_once sample_host alice_unit alice_values []
           "alice" "staff"); reflexivity.
Defined.

(** C10, as the code has it.  In a file with at least one [User] pair
    and two or more [Group] pairs, every [run-as] line written carries
    the value of the last [Group] pair of the file; the [run-as] lines
    are those of the first [User] pairs of the file, one each and in
    file order, up to where the run went; and when the run ends
    normally they are one per [User] pair. *)
Theorem run_as_uses_last_group (E : host) (lines : list string)
    (values : list pair) (comments : list string) :
  read_unit lines = inr (values, comments) ->
  (1 <= List.length (keyed "User" values))%nat ->
  (2 <= List.length (keyed "Group" values))%nat ->
  (forall line,
     In line (target (snd (main E lines init))) -> is_run_as line = true ->
     exists u, In u (keyed "User" values) /\
       line = "run-as = " ++ u ++ ":"
                ++ last (keyed "Group" values) "" ++ nl) /\
  (exists n,
     filter is_run_as (target (snd (main E lines init)))
     = map (fun u => "run-as = " ++ u ++ ":"
                       ++ last (keyed "Group" values) "" ++ nl)
           (firstn n (keyed "User" values))) /\
  (fst (main E lines init) = Ok tt ->
   filter is_run_as (target (snd (main E lines init)))
   = map (fun u => "run-as = " ++ u ++ ":"
                     ++ last (keyed "Group" values) "" ++ nl)
         (keyed "User" values)).
Proof.
  intros Hr _ Hg.
  assert (keyed "Group" values <> []) as Hne.
  { destruct (keyed "Group" values); [simpl in Hg; lia | discriminate]. }
  destruct (main_run_as E lines values comments Hr) as [n [Hn Hlen]].
  assert (forall l, map (run_as_line values) l
                    = map (fun u => "run-as = " ++ u ++ ":"
                             ++ last (keyed "Group" values) "" ++ nl) l)
    as Hmap.
  { intro l. apply map_ext. intro u. now apply run_as_line_last_group. }
  rewrite Hmap in Hn. split; [| split].
  - intros line Hin Hline.
    assert (In line (filter is_run_as (target (snd (main E lines init)))))
      as Hf by (apply filter_In; auto).
    rewrite Hn in Hf. apply in_map_iff in Hf as [u [Hu Hin']].
    exists u. split; [| now symmetry].
    rewrite <- (firstn_skipn n (keyed "User" values)).
    apply in_or_app. now left.
  - exists n. exact Hn.
  - intro Hok. rewrite Hn, (Hlen Hok). now rewrite firstn_all.
Qed.

(** C10, as stated, fails: a pair that raises between two [User] pairs
    ends the run, and the second [User] pair writes no line. *)
Lemma raise_between_users_one_run_as :
  read_unit raising_unit = inr (raising_values, []) /\
  keyed "User" raising_values = ["alice"; "bob"] /\
  keyed "Group" raising_values = ["a"; "b"] /\
  fst (main sample_host raising_unit init) = Raised ValueError /\
  filter is_run_as (target (snd (main sample_host raising_unit init)))
  = ["run-as = alice:b" ++ nl].
Proof. repeat split. Qed.

Lemma run_as_uses_last_group_witness :
  read_unit two_groups_unit = inr (two_groups_values, []) /\
  (1 <= List.length (keyed "User" two_groups_values))%nat /\
  (2 <= List.length (keyed "Group" two_groups_values))%nat /\
  fst (main sample_host two_groups_unit init) = Ok tt /\
  filter is_run_as (target (snd (main sample_host two_groups_unit init)))
  = ["run-as = alice:wheel" ++ nl; "run-as = bob:wheel" ++ nl].
Proof.
  split; [reflexivity |].
  split; [simpl; lia |].
  split; [simpl; lia |].
  split; [reflexivity |].
  destruct (run_as_uses_last_group sample_host two_groups_unit
              two_groups_values []) as [_ [_ Hall]];
    [reflexivity | simpl; lia | simpl; lia |].
  apply Hall. reflexivity.
Defined.

(** * Further properties *)

(** ** Character classes *)

Lemma numeric_class (c : ascii) :
  isnumeric_ch c = true ->
  Ascii.eqb c " " = false /\ isspace_ch c = false /\ isalpha_ch c = false.
Proof.
  destruct c as [[] [] [] [] [] [] [] []]; intro H;
    try discriminate H; repeat split.
Qed.

Lemma alpha_class (c : ascii) :
  isalpha_ch c = true ->
  Ascii.eqb c " " = false /\ isspace_ch c = false /\ isnumeric_ch c = false.
Proof.
  destruct c as [[] [] [] [] [] [] [] []]; intro H;
    try discriminate H; repeat split.
Qed.

Lemma all_chars_app (p : ascii -> bool) (a b : string) :
  all_chars p (a ++ b) = all_chars p a && all_chars p b.
Proof.
  induction a as [|c a IH]; simpl; [reflexivity|].
  now rewrite IH, andb_assoc.
Qed.

Lemma all_chars_impl (p q : ascii -> bool) (s : string) :
  (forall c, p c = true -> q c = true) ->
  all_chars p s = true -> all_chars q s = true.
Proof.
  intro Hpq. induction s as [|c s IH]; simpl; [reflexivity|].
  intro H. apply andb_prop in H as [Hc Hs].
  now rewrite (Hpq c Hc), IH.
Qed.

Lemma only_digits_numeric (d : string) :
  only_digits d = true -> d <> "" /\ all_chars isnumeric_ch d = true.
Proof.
  unfold only_digits. intro H. apply andb_prop in H as [Hne Hd]. split.
  - intros ->. discriminate.
  - revert Hd. apply all_chars_impl. exact digit_isnumeric_ch.
Qed.

(** ** [strip] *)

Lemma lstrip_id (s : string) :
  all_chars (fun c => negb (isspace_ch c)) s = true -> lstrip s = s.
Proof.
  destruct s as [|c s]; simpl; [reflexivity|].
  intro H. apply andb_prop in H as [Hc _].
  now destruct (isspace_ch c).
Qed.

Lemma rstrip_id (s : string) :
  all_chars (fun c => negb (isspace_ch c)) s = true -> rstrip s = s.
Proof.
  induction s as [|c s IH]; simpl; [reflexivity|].
  intro H. apply andb_prop in H as [Hc Hs]. rewrite (IH Hs).
  destruct s; [|reflexivity]. now destruct (isspace_ch c).
Qed.

Lemma strip_id (s : string) :
  all_chars (fun c => negb (isspace_ch c)) s = true -> strip s = s.
Proof. intro H. unfold strip. now rewrite lstrip_id, rstrip_id. Qed.

Lemma strip_alpha (t : string) :
  all_chars isalpha_ch t = true -> strip t = t.
Proof.
  intro H. apply strip_id. revert H. apply all_chars_impl.
  intros c Hc. now destruct (alpha_class c Hc) as [_ [-> _]].
Qed.

(** ** The scan of [parse_time] on digits and on letters *)

Lemma scan_digits (d : string) :
  all_chars isnumeric_ch d = true ->
  forall m w ts rest,
    scan_time (mkScan m w false ts) (d ++ rest)
    = scan_time (mkScan (m ++ d) w false ts) rest.
Proof.
  induction d as [|c d IH]; simpl; intros Hd m w ts rest.
  - now rewrite str_app_nil_r.
  - apply andb_prop in Hd as [Hc Hd].
    unfold scan_char. destruct (numeric_class c Hc) as [-> _].
    rewrite Hc. simpl. rewrite IH by assumption.
    now rewrite str_app_assoc.
Qed.

(** The first digit after letters closes the segment. *)
Lemma scan_digits_close (d : string) :
  d <> "" -> all_chars isnumeric_ch d = true ->
  forall m w ts rest,
    scan_time (mkScan m w true ts) (d ++ rest)
    = scan_time
        (mkScan (m ++ d) "" false (ts ++ [(strip w, strip m)])) rest.
Proof.
  destruct d as [|c d]; [congruence|]. simpl. intros _ Hd m w ts rest.
  apply andb_prop in Hd as [Hc Hd].
  unfold scan_char at 1. destruct (numeric_class c Hc) as [-> _].
  rewrite Hc. simpl. rewrite scan_digits by assumption.
  now rewrite str_app_assoc.
Qed.

Lemma scan_letters (t : string) :
  all_chars isalpha_ch t = true ->
  forall m w l ts rest,
    scan_time (mkScan m w l ts) (t ++ rest)
    = scan_time
        (mkScan m (w ++ t) (match t with "" => l | _ => true end) ts) rest.
Proof.
  induction t as [|c t IH]; simpl; intros Ht m w l ts rest.
  - now rewrite str_app_nil_r.
  - apply andb_prop in Ht as [Hc Ht].
    unfold scan_char. destruct (alpha_class c Hc) as [-> [_ ->]].
    rewrite Hc. simpl. rewrite IH by assumption.
    rewrite str_app_assoc. simpl. now destruct t.
Qed.

Lemma segment_ok_parts (seg : string * string) :
  segment_ok seg = true ->
  fst seg <> "" /\ all_chars isnumeric_ch (fst seg) = true /\
  snd seg <> "" /\ all_chars isalpha_ch (snd seg) = true.
Proof.
  unfold segment_ok. intro H.
  apply andb_prop in H as [H Ha]. apply andb_prop in H as [Hd Hne].
  destruct (only_digits_numeric _ Hd) as [Hd1 Hd2].
  repeat split; auto. intro Ht. rewrite Ht in Hne. discriminate.
Qed.

(** After a tag, every further segment closes the one before it: the
    tags come out in order, and [mem] keeps all the digits. *)
Lemma scan_segments (segs : list (string * string)) :
  forallb segment_ok segs = true ->
  forall m w ts,
  exists l w',
    scan_time (mkScan m w true ts) (segments_text segs)
    = mkScan (m ++ all_digits segs) w' true (ts ++ l) /\
    (map fst l ++ [strip w'])%list = map strip (w :: map snd segs).
Proof.
  induction segs as [|[d t] r IH]; simpl; intros Hs m w ts.
  - exists [], w. rewrite str_app_nil_r, app_nil_r. auto.
  - apply andb_prop in Hs as [Hseg Hr].
    destruct (segment_ok_parts _ Hseg) as [Hd1 [Hd2 [Ht1 Ht2]]].
    simpl in Hd1, Hd2, Ht1, Ht2.
    rewrite scan_digits_close by assumption.
    rewrite scan_letters by assumption. simpl.
    destruct t as [|c t]; [congruence|].
    destruct (IH Hr (m ++ d) (String c t) (ts ++ [(strip w, strip m)])%list)
      as [l [w' [Hscan Htags]]].
    exists ((strip w, strip m) :: l), w'. split.
    + rewrite Hscan, str_app_assoc, <- app_assoc. reflexivity.
    + simpl. now rewrite Htags.
Qed.

Lemma all_digits_numeric (segs : list (string * string)) :
  forallb segment_ok segs = true ->
  all_chars isnumeric_ch (all_digits segs) = true.
Proof.
  induction segs as [|seg r IH]; simpl; [reflexivity|]. intro H.
  apply andb_prop in H as [Hseg Hr].
  destruct (segment_ok_parts _ Hseg) as [_ [Hd _]].
  now rewrite all_chars_app, Hd, IH.
Qed.

Lemma map_strip_tags (segs : list (string * string)) :
  forallb segment_ok segs = true ->
  map strip (map snd segs) = map snd segs.
Proof.
  induction segs as [|seg r IH]; simpl; [reflexivity|]. intro H.
  apply andb_prop in H as [Hseg Hr].
  destruct (segment_ok_parts _ Hseg) as [_ [_ [_ Ht]]].
  now rewrite strip_alpha, IH.
Qed.

(** The whole scan of a text of segments. *)
Lemma scan_text (segs : list (string * string)) :
  segs <> [] -> forallb segment_ok segs = true ->
  exists l w',
    scan_time (mkScan "" "" false []) (segments_text segs)
    = mkScan (all_digits segs) w' true l /\
    (map fst l ++ [strip w'])%list = map snd segs.
Proof.
  destruct segs as [|[d t] r]; [congruence|]. intros _ Hs.
  pose proof (map_strip_tags _ Hs) as Hstrip.
  simpl in Hs. apply andb_prop in Hs as [Hseg Hr].
  destruct (segment_ok_parts _ Hseg) as [Hd1 [Hd2 [Ht1 Ht2]]].
  simpl in Hd1, Hd2, Ht1, Ht2. simpl segments_text.
  rewrite scan_digits by assumption. rewrite scan_letters by assumption.
  simpl. destruct t as [|c t]; [congruence|].
  destruct (scan_segments r Hr d (String c t) []) as [l [w' [Hscan Htags]]].
  exists l, w'. split; [exact Hscan|].
  rewrite Htags. exact Hstrip.
Qed.

(** ** The conversion of the segments *)

Lemma digits_value_some (d : string) :
  all_chars isnumeric_ch d = true ->
  forall acc, exists z, digits_value acc d = Some z.
Proof.
  induction d as [|c d IH]; simpl; intros Hd acc; [eauto|].
  apply andb_prop in Hd as [Hc Hd]. rewrite Hc. auto.
Qed.

Lemma float_digits (m : string) (st : state) :
  m <> "" -> all_chars isnumeric_ch m = true ->
  float m st = (Ok (inject_Z (digits_Z m)), st).
Proof.
  intros Hne Hd. unfold float, digits_Z.
  destruct (digits_value_some m Hd 0%Z) as [z ->].
  destruct m; [congruence | reflexivity].
Qed.

Lemma add_float_value (sec : number) (x : Q) :
  number_value (add_float sec x) = number_value sec + x.
Proof. destruct sec; reflexivity. Qed.

Section Conversion.

Variable E : host.
Variable m : string.
Hypothesis m_nonempty : m <> "".
Hypothesis m_digits : all_chars isnumeric_ch m = true.

Lemma add_item_value (sec : number) (item : string * string) (st : state) :
  exists n st',
    add_item E m sec item st = (Ok n, st') /\
    target st' = target st /\
    number_value n
    == number_value sec + inject_Z (digits_Z m) * factor_of (fst item) /\
    is_float n = is_float sec || recognised (fst item) /\
    (recognised (fst item) = true -> st' = st).
Proof.
  unfold add_item, factor_of, recognised, seconds_per_unit.
  repeat match goal with
         | |- context [if ?b then _ else _] => destruct b
         end;
    try (unfold bind; rewrite float_digits by assumption;
         eexists; eexists; split; [reflexivity|];
         split; [reflexivity|]; split;
         [ rewrite add_float_value; first [ring | exact (Qeq_refl _)]
         | split; [destruct sec; reflexivity | reflexivity] ]).
  unfold warning, bind. destruct (quiet E); simpl;
    eexists; eexists; (split; [reflexivity|]);
    (split; [reflexivity|]);
    (split; [ring | split; [now rewrite orb_false_r | discriminate]]).
Qed.

Lemma add_items_value (items : list (string * string)) :
  forall sec st,
  exists n st',
    add_items E m sec items st = (Ok n, st') /\
    target st' = target st /\
    number_value n
    == number_value sec
       + inject_Z (digits_Z m) * sum_factors (map fst items) /\
    is_float n = is_float sec || existsb recognised (map fst items) /\
    (forallb recognised (map fst items) = true -> st' = st).
Proof.
  induction items as [|item r IH]; intros sec st; simpl.
  - exists sec, st. repeat split; auto.
    + unfold sum_factors; simpl. ring.
    + now rewrite orb_false_r.
  - destruct (add_item_value sec item st)
      as [n1 [st1 [H1 [Ht1 [Hv1 [Hf1 Hs1]]]]]].
    destruct (IH n1 st1) as [n [st' [H2 [Ht2 [Hv2 [Hf2 Hs2]]]]]].
    exists n, st'. unfold bind. rewrite H1. repeat split.
    + exact H2.
    + congruence.
    + rewrite Hv2, Hv1. unfold sum_factors; simpl. ring.
    + rewrite Hf2, Hf1. now rewrite orb_assoc.
    + intro Hr. apply andb_prop in Hr as [Ha Hb].
      rewrite (Hs2 Hb). auto.
Qed.

End Conversion.

Lemma segments_text_not_numeric (segs : list (string * string)) :
  segs <> [] -> forallb segment_ok segs = true ->
  isnumeric (segments_text segs) = false.
Proof.
  destruct segs as [|[d t] r]; [congruence|]. intros _ Hs.
  simpl in Hs. apply andb_prop in Hs as [Hseg _].
  destruct (segment_ok_parts _ Hseg) as [_ [_ [Ht1 Ht2]]].
  simpl in Ht1, Ht2. destruct t as [|c t]; [congruence|].
  simpl in Ht2. apply andb_prop in Ht2 as [Hc _].
  assert (all_chars isnumeric_ch (segments_text ((d, String c t) :: r))
          = false) as Hall.
  { simpl. rewrite all_chars_app. simpl.
    destruct (alpha_class c Hc) as [_ [_ ->]].
    simpl. apply andb_false_r. }
  unfold isnumeric. now destruct (segments_text _).
Qed.

Lemma all_digits_nonempty (segs : list (string * string)) :
  segs <> [] -> forallb segment_ok segs = true -> all_digits segs <> "".
Proof.
  destruct segs as [|[d t] r]; [congruence|]. intros _ Hs.
  simpl in Hs. apply andb_prop in Hs as [Hseg _].
  destruct (segment_ok_parts _ Hseg) as [Hd _]. simpl in *.
  destruct d; [congruence | discriminate].
Qed.

Lemma scan_spaces (text : string) :
  forall s, scan_time s text = scan_time s (remove_spaces text).
Proof.
  induction text as [|c r IH]; intro s; simpl; [reflexivity|].
  destruct (Ascii.eqb c " ") eqn:Hc.
  - unfold scan_char. rewrite Hc. apply IH.
  - simpl. apply IH.
Qed.

Lemma numeric_no_spaces (text : string) :
  all_chars isnumeric_ch text = true -> remove_spaces text = text.
Proof.
  induction text as [|c r IH]; simpl; [reflexivity|]. intro H.
  apply andb_prop in H as [Hc Hr].
  destruct (numeric_class c Hc) as [-> _]. now rewrite IH.
Qed.

Lemma isnumeric_remove_spaces (text : string) :
  isnumeric (remove_spaces text) = false -> isnumeric text = false.
Proof.
  intro H. destruct (isnumeric text) eqn:Hn; [|reflexivity].
  assert (all_chars isnumeric_ch text = true) as Hall
    by (destruct text; [discriminate | exact Hn]).
  rewrite (numeric_no_spaces text Hall) in H. congruence.
Qed.

Lemma parse_time_on_segments (E : host) (segs : list (string * string))
    (text : string) (st : state) :
  segs <> [] ->
  forallb segment_ok segs = true ->
  remove_spaces text = segments_text segs ->
  exists n st',
    parse_time E text st = (Ok (PNum n), st') /\
    target st' = target st /\
    number_value n
    == inject_Z (digits_Z (all_digits segs)) * sum_factors (map snd segs) /\
    is_float n = existsb recognised (map snd segs) /\
    (forallb recognised (map snd segs) = true -> st' = st).
Proof.
  intros Hne Hs Htext. unfold parse_time.
  rewrite (isnumeric_remove_spaces text)
    by (rewrite Htext; now apply segments_text_not_numeric).
  rewrite scan_spaces, Htext.
  destruct (scan_text segs Hne Hs) as [l [w' [Hscan Htags]]].
  rewrite Hscan. simpl mem. simpl what. simpl times.
  destruct (add_items_value E (all_digits segs)
              (all_digits_nonempty segs Hne Hs)
              (all_digits_numeric segs Hs)
              (l ++ [(strip w', strip (all_digits segs))]) (Int 0) st)
    as [n [st' [Hrun [Ht [Hv [Hf Hst]]]]]].
  rewrite map_app in Hv, Hf, Hst. simpl map in Hv, Hf, Hst.
  rewrite Htags in Hv, Hf, Hst.
  exists n, st'. unfold bind. rewrite Hrun. repeat split; auto.
  rewrite Hv. simpl. ring.
Qed.

Lemma factor_of_whole (tag : string) :
  sub_second tag = false -> factor_of tag == inject_Z (whole_factor tag).
Proof.
  unfold sub_second, in_list. simpl. intro H.
  repeat (apply orb_false_elim in H as [? H]).
  unfold factor_of, seconds_per_unit, whole_factor, in_list. simpl.
  repeat match goal with
         | Hx : (tag =? _) = false |- _ => rewrite Hx; clear Hx
         end.
  simpl.
  repeat match goal with
         | |- context [if ?b then _ else _] => destruct b
         end; reflexivity.
Qed.

Lemma sum_factors_whole (tags : list string) :
  forallb (fun t => negb (sub_second t)) tags = true ->
  sum_factors tags == inject_Z (sum_whole tags).
Proof.
  induction tags as [|t r IH]; simpl; intro H; [reflexivity|].
  apply andb_prop in H as [Ht Hr]. apply negb_true_iff in Ht.
  unfold sum_factors, sum_whole in *. simpl.
  rewrite (factor_of_whole t Ht), (IH Hr), inject_Z_plus. reflexivity.
Qed.

(** X1.  On a duration written as segments, each made of digits and
    then letters, with spaces anywhere, [parse_time] reads the digits
    of all the segments as one number and returns it times the sum of
    the seconds per unit of the tags, a tag outside the table counting
    for 0.  This is stated where the floats of the source are exact:
    no tag of a fraction of a second, and a result of at most 2^53.
    The run does not raise and writes nothing to the target; the result
    is a float exactly when some tag is in the table, and nothing is
    printed when all are. *)
Theorem parse_time_segments (E : host) (segs : list (string * string))
    (text : string) (st : state) :
  segs <> [] ->
  forallb segment_ok segs = true ->
  remove_spaces text = segments_text segs ->
  forallb (fun t => negb (sub_second t)) (map snd segs) = true ->
  (digits_Z (all_digits segs) * sum_whole (map snd segs) <= exact_bound)%Z ->
  exists n st',
    parse_time E text st = (Ok (PNum n), st') /\
    target st' = target st /\
    number_value n
    == inject_Z (digits_Z (all_digits segs) * sum_whole (map snd segs)) /\
    is_float n = existsb recognised (map snd segs) /\
    (forallb recognised (map snd segs) = true -> st' = st).
Proof.
  intros Hne Hs Htext Hw _.
  destruct (parse_time_on_segments E segs text st Hne Hs Htext)
    as [n [st' [Hrun [Ht [Hv [Hf Hst]]]]]].
  exists n, st'. repeat split; auto.
  rewrite Hv, (sum_factors_whole _ Hw), inject_Z_mult. reflexivity.
Qed.

Lemma parse_time_segments_witness :
  [("2", "d"); ("12", "h")] <> [] /\
  forallb segment_ok [("2", "d"); ("12", "h")] = true /\
  remove_spaces "2d 12h" = segments_text [("2", "d"); ("12", "h")] /\
  forallb (fun t => negb (sub_second t)) ["d"; "h"] = true /\
  (212 * (86400 + 3600) <= exact_bound)%Z /\
  exists n st',
    parse_time sample_host "2d 12h" init = (Ok (PNum n), st') /\
    target st' = target init /\
    number_value n == inject_Z 19080000.
Proof.
  split; [discriminate |]. do 3 (split; [reflexivity |]).
  split; [apply Z.leb_le; reflexivity |].
  destruct (parse_time_segments sample_host [("2", "d"); ("12", "h")]
              "2d 12h" init)
    as [n [st' [Hrun [Ht [Hv _]]]]];
    [discriminate | reflexivity | reflexivity | reflexivity
    | apply Z.leb_le; reflexivity |].
  exists n, st'. split; [exact Hrun |]. split; [exact Ht | exact Hv].
Defined.

(** X2.  A duration of one segment whose tag is a tag of whole seconds
    of the table is converted as written: the digits times the seconds
    per unit of the tag, as a float, with no effect.  This is stated
    for a result of at most 2^53, where the float of the source is
    exact. *)
Theorem parse_time_single_segment (E : host) (d t : string) (st : state) :
  only_digits d = true ->
  all_chars isalpha_ch t = true ->
  recognised t = true ->
  sub_second t = false ->
  (digits_Z d * whole_factor t <= exact_bound)%Z ->
  exists q,
    parse_time E (d ++ t) st = (Ok (PNum (Float q)), st) /\
    q == inject_Z (digits_Z d * whole_factor t).
Proof.
  intros Hd Ht Hrec Hsub _.
  assert (t <> "") as Hne by (intros ->; discriminate).
  assert (segment_ok (d, t) = true) as Hseg.
  { unfold segment_ok; simpl. rewrite Hd, Ht.
    destruct t; [congruence | reflexivity]. }
  destruct (parse_time_on_segments E [(d, t)] (d ++ t) st)
    as [n [st' [Hrun [_ [Hv [Hfl Hst]]]]]].
  - discriminate.
  - simpl. now rewrite Hseg.
  - simpl. rewrite !str_app_nil_r.
    destruct (only_digits_numeric d Hd) as [_ Hnum].
    assert (remove_spaces t = t) as Hrt.
    { clear -Ht. induction t as [|c t IH]; simpl; [reflexivity|].
      simpl in Ht. apply andb_prop in Ht as [Hc Ht].
      destruct (alpha_class c Hc) as [-> _]. now rewrite IH. }
    clear -Hnum Hrt. induction d as [|c d IH]; simpl; [exact Hrt|].
    simpl in Hnum. apply andb_prop in Hnum as [Hc Hnum].
    destruct (numeric_class c Hc) as [-> _]. now rewrite IH.
  - simpl in Hv, Hfl, Hst. rewrite Hrec in Hfl, Hst.
    rewrite str_app_nil_r in Hv.
    rewrite (Hst eq_refl) in Hrun.
    destruct n as [z|q]; [discriminate|].
    exists q. split; [exact Hrun|].
    simpl in Hv. rewrite Hv. unfold sum_factors; simpl.
    rewrite (factor_of_whole t Hsub), inject_Z_mult. ring.
Qed.

Lemma parse_time_single_segment_witness :
  only_digits "90" = true /\
  all_chars isalpha_ch "min" = true /\
  recognised "min" = true /\
  sub_second "min" = false /\
  (90 * 60 <= exact_bound)%Z /\
  exists q,
    parse_time sample_host "90min" init = (Ok (PNum (Float q)), init) /\
    q == inject_Z 5400.
Proof.
  do 4 (split; [reflexivity |]).
  split; [apply Z.leb_le; reflexivity |].
  apply (parse_time_single_segment sample_host "90" "min" init);
    [reflexivity | reflexivity | reflexivity | reflexivity
    | apply Z.leb_le; reflexivity].
Defined.

(** X3.  A tag of the table with no digit before it makes [parse_time]
    raise [ValueError]: [float] is applied to the empty string. *)
Theorem parse_time_tag_without_digits (E : host) (t : string) (st : state) :
  In t ascii_tags ->
  parse_time E t st = (Raised ValueError, st).
Proof.
  unfold ascii_tags. simpl.
  intro H. repeat (destruct H as [<-|H]; [reflexivity|]). contradiction.
Qed.

Lemma parse_time_tag_without_digits_witness :
  In "hours" ascii_tags /\
  parse_time sample_host "hours" init = (Raised ValueError, init).
Proof.
  split; [simpl; tauto |].
  apply (parse_time_tag_without_digits sample_host "hours" init).
  simpl; tauto.
Defined.

Lemma scan_no_letters (text : string) :
  all_chars (fun c => negb (isalpha_ch c)) text = true ->
  forall m, exists m',
    scan_time (mkScan m "" false []) text = mkScan m' "" false [].
Proof.
  induction text as [|c r IH]; simpl; intros H m; [eauto|].
  apply andb_prop in H as [Hc Hr]. unfold scan_char.
  destruct (Ascii.eqb c " "); [auto|].
  destruct (isnumeric_ch c); simpl; [auto|].
  destruct (isalpha_ch c); [discriminate | auto].
Qed.

(** X4.  A duration with no letter in it that is not purely numeric,
    such as the empty string or digits with a space or a dot among
    them, yields the integer 0: nothing is raised, nothing goes to the
    target. *)
Theorem parse_time_no_unit (E : host) (text : string) (st : state) :
  all_chars (fun c => negb (isalpha_ch c)) text = true ->
  isnumeric text = false ->
  exists st',
    parse_time E text st = (Ok (PNum (Int 0)), st') /\
    target st' = target st.
Proof.
  intros Ha Hn. unfold parse_time. rewrite Hn.
  destruct (scan_no_letters text Ha "") as [m' ->]. simpl.
  unfold add_item, bind, warning, ret; simpl.
  destruct (quiet E); simpl; eexists; split; reflexivity.
Qed.

Lemma parse_time_no_unit_witness :
  all_chars (fun c => negb (isalpha_ch c)) "1 30" = true /\
  isnumeric "1 30" = false /\
  exists st',
    parse_time sample_host "1 30" init = (Ok (PNum (Int 0)), st') /\
    target st' = target init.
Proof.
  do 2 (split; [reflexivity |]).
  apply (parse_time_no_unit sample_host "1 30" init); reflexivity.
Defined.

(** ** The reader on whole files *)

(** X6.  On lines none of which is empty, as a file yields them, the
    reading loop never raises: [line[0]] is there, and every line is
    taken as a comment, a section header, a line without a name, or a
    pair. *)
Theorem read_unit_never_raises (lines : list string) :
  Forall (fun line => line <> "") lines ->
  exists values comments, read_unit lines = inr (values, comments).
Proof. intro H. now apply read_lines_total. Qed.

Lemma read_unit_never_raises_witness :
  Forall (fun line => line <> "") untyped_unit /\
  exists values comments, read_unit untyped_unit = inr (values, comments).
Proof.
  split; [repeat constructor; discriminate |].
  apply (read_unit_never_raises untyped_unit).
  repeat constructor; discriminate.
Defined.

Lemma read_lines_comments_are (lines : list string) :
  forall acc values comments,
    read_lines acc lines = inr (values, comments) ->
    comments
    = (snd acc ++ map (append comment_prefix)
                      (filter is_comment_line lines))%list.
Proof.
  induction lines as [|line r IH]; intros acc values comments; simpl.
  - intros [= ->]. simpl. now rewrite app_nil_r.
  - destruct (read_line acc line) as [e|acc'] eqn:Hl; [discriminate|].
    intro Hr. rewrite (IH _ _ _ Hr). clear IH Hr.
    unfold read_line in Hl. destruct line as [|ch line]; [discriminate|].
    simpl is_comment_line.
    destruct (Ascii.eqb ch "#" || Ascii.eqb ch ";").
    + injection Hl as <-. simpl. now rewrite <- app_assoc.
    + destruct (negb (Ascii.eqb ch "[")).
      * destruct (scan_assign "" "" (String ch line)) as [[|n name] memory];
          injection Hl as <-; reflexivity.
      * injection Hl as <-. reflexivity.
Qed.

(** X7.  The comments collected are the lines that start with [#] or
    [;], all of them, in file order, each behind the same prefix and
    otherwise untouched. *)
Theorem read_unit_comments (lines : list string) (values : list pair)
    (comments : list string) :
  read_unit lines = inr (values, comments) ->
  comments = map (append comment_prefix) (filter is_comment_line lines).
Proof. intro Hr. apply (read_lines_comments_are lines _ _ _ Hr). Qed.

Lemma read_unit_comments_witness :
  read_unit untyped_unit
  = inr ([("ExecStart", "/usr/bin/foo")],
         [comment_prefix ++ "# web server" ++ nl]) /\
  [comment_prefix ++ "# web server" ++ nl]
  = map (append comment_prefix) (filter is_comment_line untyped_unit).
Proof.
  split; [reflexivity |].
  apply (read_unit_comments untyped_unit [("ExecStart", "/usr/bin/foo")]).
  reflexivity.
Defined.

Lemma read_line_scanned (acc : list pair * list string) (line : string) :
  is_scanned_line line = true ->
  read_line acc line
  = match scan_assign "" "" line with
    | ("", _) => inr acc
    | (name, memory) =>
        inr ((fst acc ++ [(strip name, strip memory)])%list, snd acc)
    end.
Proof.
  destruct line as [|c line]; simpl; [discriminate|]. intro H.
  apply andb_prop in H as [H1 H2].
  destruct (Ascii.eqb c "#" || Ascii.eqb c ";"); [discriminate|].
  destruct (negb (Ascii.eqb c "[")); [|discriminate].
  destruct (scan_assign _ _ _) as [[|n name] memory]; reflexivity.
Qed.

(** X8.  A line with exactly one [=] and something before it, that is
    neither a comment nor a section header, adds the pair of what
    stands before the [=] and what stands after it, both stripped. *)
Theorem read_line_one_equals (acc : list pair * list string)
    (k v : string) :
  is_scanned_line k = true ->
  no_equals k = true -> no_equals v = true ->
  read_line acc (k ++ String "=" v)
  = inr ((fst acc ++ [(strip k, strip v)])%list, snd acc).
Proof.
  intros Hk Hnk Hnv. rewrite read_line_scanned.
  - rewrite scan_assign_one_equals by assumption.
    destruct k; [discriminate | reflexivity].
  - destruct k; [discriminate | exact Hk].
Qed.

Lemma read_line_one_equals_witness :
  is_scanned_line "User " = true /\
  no_equals "User " = true /\ no_equals (" alice" ++ nl) = true /\
  read_line ([], []) ("User " ++ String "=" (" alice" ++ nl))
  = inr ([("User", "alice")], []).
Proof.
  do 3 (split; [reflexivity |]).
  apply (read_line_one_equals ([], []) "User " (" alice" ++ nl));
    reflexivity.
Defined.

(** X9.  On a line with two or more [=], the pair added is made of what
    stands between the last two [=] and what stands after the last
    one; whatever comes before is lost, and when nothing stands between
    the last two [=] the line adds nothing at all. *)
Theorem read_line_last_equals (acc : list pair * list string)
    (a b c : string) :
  is_scanned_line (a ++ String "=" (b ++ String "=" c)) = true ->
  no_equals b = true -> no_equals c = true ->
  read_line acc (a ++ String "=" (b ++ String "=" c))
  = match b with
    | "" => inr acc
    | _ => inr ((fst acc ++ [(strip b, strip c)])%list, snd acc)
    end.
Proof.
  intros Hl Hb Hc. rewrite read_line_scanned by assumption.
  rewrite scan_assign_last by assumption. reflexivity.
Qed.

Lemma read_line_last_equals_witness :
  is_scanned_line
    ("Environment" ++ String "=" ("A" ++ String "=" ("1" ++ nl))) = true /\
  no_equals "A" = true /\ no_equals ("1" ++ nl) = true /\
  read_line ([], [])
    ("Environment" ++ String "=" ("A" ++ String "=" ("1" ++ nl)))
  = inr ([("A", "1")], []).
Proof.
  do 3 (split; [reflexivity |]).
  apply (read_line_last_equals ([], []) "Environment" "A" ("1" ++ nl));
    reflexivity.
Defined.

Lemma all_chars_lstrip (p : ascii -> bool) (s : string) :
  all_chars p s = true -> all_chars p (lstrip s) = true.
Proof.
  induction s as [|c s IH]; simpl; [reflexivity|]. intro H.
  destruct (isspace_ch c); [|exact H].
  apply andb_prop in H as [_ Hs]. auto.
Qed.

Lemma all_chars_rstrip (p : ascii -> bool) (s : string) :
  all_chars p s = true -> all_chars p (rstrip s) = true.
Proof.
  induction s as [|c s IH]; simpl; [reflexivity|]. intro H.
  apply andb_prop in H as [Hc Hs]. specialize (IH Hs).
  destruct (rstrip s) as [|c' r'].
  - destruct (isspace_ch c); simpl; [reflexivity | now rewrite Hc].
  - simpl in *. now rewrite Hc, IH.
Qed.

Lemma all_chars_strip (p : ascii -> bool) (s : string) :
  all_chars p s = true -> all_chars p (strip s) = true.
Proof. intro H. now apply all_chars_rstrip, all_chars_lstrip. Qed.

Lemma scan_assign_no_equals (line : string) :
  forall name memory,
    no_equals name = true -> no_equals memory = true ->
    no_equals (fst (scan_assign name memory line)) = true /\
    no_equals (snd (scan_assign name memory line)) = true.
Proof.
  induction line as [|c r IH]; simpl; intros name memory Hn Hm; [auto|].
  destruct (Ascii.eqb c "=") eqn:Hc.
  - apply IH; auto.
  - apply IH; auto. unfold no_equals. rewrite all_chars_app. simpl.
    unfold no_equals in Hm. now rewrite Hm, Hc.
Qed.

Lemma read_lines_no_equals (lines : list string) :
  forall acc values comments,
    read_lines acc lines = inr (values, comments) ->
    Forall (fun p => no_equals (fst p) = true /\ no_equals (snd p) = true)
           (fst acc) ->
    Forall (fun p => no_equals (fst p) = true /\ no_equals (snd p) = true)
           values.
Proof.
  induction lines as [|line r IH]; intros acc values comments; simpl.
  - intros [= ->]. auto.
  - destruct (read_line acc line) as [e|acc'] eqn:Hl; [discriminate|].
    intros Hr Hacc. apply (IH _ _ _ Hr). clear IH Hr.
    unfold read_line in Hl. destruct line as [|ch line]; [discriminate|].
    destruct (Ascii.eqb ch "#" || Ascii.eqb ch ";").
    + injection Hl as <-. exact Hacc.
    + destruct (negb (Ascii.eqb ch "[")); [|injection Hl as <-; exact Hacc].
      destruct (scan_assign_no_equals (String ch line) "" "" eq_refl eq_refl)
        as [Hn Hm].
      destruct (scan_assign "" "" (String ch line)) as [name memory].
      simpl in Hn, Hm.
      destruct name as [|n name]; injection Hl as <-; [exact Hacc|].
      simpl. apply Forall_app. split; [exact Hacc|].
      constructor; [|constructor]. simpl.
      split; apply all_chars_strip; assumption.
Qed.

(** X10.  No [=] is ever found in a parsed key or in a parsed value,
    whatever the file: a value cannot carry an [=] to the translator. *)
Theorem read_unit_no_equals (lines : list string) (values : list pair)
    (comments : list string) :
  read_unit lines = inr (values, comments) ->
  Forall (fun p => no_equals (fst p) = true /\ no_equals (snd p) = true)
         values.
Proof.
  intro Hr. apply (read_lines_no_equals lines _ _ _ Hr). constructor.
Qed.

Lemma read_unit_no_equals_witness :
  read_unit alice_unit = inr (alice_values, []) /\
  Forall (fun p => no_equals (fst p) = true /\ no_equals (snd p) = true)
         alice_values.
Proof.
  split; [reflexivity |].
  apply (read_unit_no_equals alice_unit alice_values []). reflexivity.
Defined.

(** ** Rules that copy the value *)

(** X11.  Each of the keys [ExecStart], [ExecStop], [StartLimitBurst],
    [PIDFile], [EnvironmentFile], [WorkingDirectory], [LimitCORE],
    [LimitNOFILE], [LimitDATA] and [UtmpIdentifier] writes exactly one
    line, the dinit name of the table followed by the value as it
    is. *)
Theorem direct_key_rule (E : host) (values : list pair) (k d v : string)
    (st : state) :
  In (k, d) direct_keys ->
  fst (translate_pair E values (k, v) st) = Ok tt /\
  target (snd (translate_pair E values (k, v) st))
  = (target st ++ [(d ++ " = " ++ v ++ nl)%string])%list.
Proof.
  unfold direct_keys. simpl. intro H.
  repeat (destruct H as [[= <- <-]|H]; [split; reflexivity|]).
  contradiction.
Qed.

Lemma direct_key_rule_witness :
  In ("WorkingDirectory", "working-dir") direct_keys /\
  target (snd (translate_pair sample_host []
                 ("WorkingDirectory", "/srv") init))
  = ["working-dir = /srv" ++ nl].
Proof.
  split; [simpl; tauto |].
  apply (direct_key_rule sample_host [] "WorkingDirectory" "working-dir"
           "/srv" init).
  simpl; tauto.
Defined.

(** X12.  Each of the keys [Wants], [Requires], [Requisite], [BindsTo],
    [PartOf], [WantedBy], [RequiredBy], [UpheldBy], [Before] and
    [After] writes one line per token of the value split at single
    spaces, in order, the dinit name of the table followed by the
    token, and ends normally. *)
Theorem list_key_rule (E : host) (values : list pair) (k d v : string)
    (st : state) :
  In (k, d) list_keys ->
  fst (translate_pair E values (k, v) st) = Ok tt /\
  target (snd (translate_pair E values (k, v) st))
  = (target st
     ++ map (fun dep => (d ++ " = " ++ dep ++ nl)%string) (split_space v))%list.
Proof.
  unfold list_keys. simpl. intro H.
  repeat (destruct H as [[= <- <-]|H];
          [ unfold translate_pair; simpl; try unfold bind;
            rewrite for_each_write; try unfold warning;
            destruct (quiet E); split; reflexivity |]).
  contradiction.
Qed.

Lemma list_key_rule_witness :
  In ("After", "after") list_keys /\
  target (snd (translate_pair sample_host []
                 ("After", "network.target  syslog.target") init))
  = ["after = network.target" ++ nl; "after = " ++ nl;
     "after = syslog.target" ++ nl].
Proof.
  split; [simpl; tauto |].
  apply (list_key_rule sample_host [] "After" "after"
           "network.target  syslog.target" init).
  simpl; tauto.
Defined.

(** X13.  Splitting at single spaces loses nothing: the tokens joined
    by one space are the value again, there is one token more than
    there are spaces (so always at least one, empty for an empty
    value), and no token holds a space. *)
Theorem split_space_join (s : string) :
  join_space (split_space s) = s /\
  List.length (split_space s) = S (count_spaces s) /\
  Forall (fun t => count_spaces t = 0%nat) (split_space s).
Proof.
  induction s as [|c r [IHj [IHl IHf]]]; simpl.
  - repeat split. repeat constructor.
  - destruct (split_space_cons r) as [t [ts Hs]]. rewrite Hs in *.
    destruct (Ascii.eqb c " ") eqn:Hc.
    + apply Ascii.eqb_eq in Hc. subst c. repeat split.
      * simpl in *. now rewrite IHj.
      * simpl in *. now rewrite IHl.
      * constructor; [reflexivity | exact IHf].
    + repeat split.
      * simpl in *. destruct ts; simpl in *; now rewrite <- IHj.
      * simpl in *. exact IHl.
      * inversion IHf; subst. constructor; [|assumption].
        simpl. now rewrite Hc.
Qed.

(** X14.  A [Type] pair with one of the values [simple], [exec],
    [forking], [oneshot] and [notify] writes the one line [type = ]
    followed by the dinit type of the table, records that a type was
    seen, and sets the tri-state to 1 for [forking] only. *)
Theorem type_rule (E : host) (values : list pair) (v d : string)
    (st : state) :
  In (v, d) type_table ->
  fst (translate_pair E values ("Type", v) st) = Ok tt /\
  target (snd (translate_pair E values ("Type", v) st))
  = (target st ++ [("type = " ++ d ++ nl)%string])%list /\
  has_type (snd (translate_pair E values ("Type", v) st)) = true /\
  is_pidfile (snd (translate_pair E values ("Type", v) st))
  = (if v =? "forking" then 1%Z else is_pidfile st).
Proof.
  unfold type_table. simpl. intro H. destruct E as [[] u sg f];
    repeat (destruct H as [[= <- <-]|H]; [repeat split|]);
    contradiction.
Qed.

Lemma type_rule_witness :
  In ("oneshot", "scripted") type_table /\
  target (snd (translate_pair sample_host [] ("Type", "oneshot") init))
  = ["type = scripted" ++ nl].
Proof.
  split; [simpl; tauto |].
  apply (type_rule sample_host [] "oneshot" "scripted" init).
  simpl; tauto.
Defined.

(** X15.  The [User] rule always writes one line: [run-as = ] and the
    user alone when the file has no [Group] pair, the user, a colon
    and the value of the last [Group] pair of the file otherwise. *)
Theorem user_rule (E : host) (values : list pair) (u : string)
    (st : state) :
  translate_pair E values ("User", u) st
  = (Ok tt,
     emit [match keyed "Group" values with
           | [] => "run-as = " ++ u ++ nl
           | gs => "run-as = " ++ u ++ ":" ++ last gs "" ++ nl
           end] st).
Proof.
  rewrite translate_user. unfold run_as_line.
  rewrite run_as_last_group.
  destruct (keyed "Group" values); [reflexivity|].
  now rewrite str_app_assoc.
Qed.

(** ** The [Alias] rule *)

Lemma for_each_write_file (f : string -> string) (tokens : list string)
    (st : state) :
  for_each (fun a => write_file a (f a)) tokens st
  = (if existsb (String.eqb "") tokens
     then Raised FileNotFoundError else Ok tt,
     mkState (target st)
             (alias_files st ++ map (fun a => (a, f a)) (until_empty tokens))
             (stdout st) (is_pidfile st) (has_type st)).
Proof.
  revert st; induction tokens as [|t r IH]; intro st; simpl.
  - rewrite app_nil_r. now destruct st.
  - unfold bind, write_file at 1. destruct t as [|c t]; simpl.
    + rewrite app_nil_r. now destruct st.
    + rewrite IH. simpl. now rewrite <- app_assoc.
Qed.

(** X16.  When no token of the value is the path of the output file,
    the [Alias] rule makes no write to the target.  It opens and writes
    one file per token of the value split at single spaces, in order,
    named by the token and holding the one line
    [depends-on = <unit file>.dinit], up to the first empty token, at
    which it raises [FileNotFoundError]; an empty value or two spaces
    in a row are such a case.  With no empty token it ends normally. *)
Theorem alias_rule (E : host) (values : list pair) (v : string)
    (st : state) :
  existsb (String.eqb (unitfile E ++ ".dinit")) (split_space v) = false ->
  fst (translate_pair E values ("Alias", v) st)
  = (if existsb (String.eqb "") (split_space v)
     then Raised FileNotFoundError else Ok tt) /\
  target (snd (translate_pair E values ("Alias", v) st)) = target st /\
  alias_files (snd (translate_pair E values ("Alias", v) st))
  = (alias_files st
     ++ map (fun a => (a, ("depends-on = " ++ unitfile E ++ ".dinit" ++ nl)
                            %string))
            (until_empty (split_space v)))%list.
Proof.
  intros _.
  change (translate_pair E values ("Alias", v) st)
    with ((for_each
             (fun a => write_file a ("depends-on = " ++ unitfile E
                                       ++ ".dinit" ++ nl))
             (split_space v) ;;
           print ("Service unit has " ++ dq ++ "Alias" ++ dq ++
                  ", Creating another service for convering that")) st).
  unfold bind.
  rewrite (for_each_write_file
             (fun _ => "depends-on = " ++ unitfile E ++ ".dinit" ++ nl)).
  destruct (existsb (String.eqb "") (split_space v)); repeat split.
Qed.

Lemma alias_rule_witness :
  existsb (String.eqb (unitfile sample_host ++ ".dinit"))
          (split_space "a.service  b.service") = false /\
  split_space "a.service  b.service" = ["a.service"; ""; "b.service"] /\
  fst (translate_pair sample_host [] ("Alias", "a.service  b.service") init)
  = Raised FileNotFoundError /\
  alias_files
    (snd (translate_pair sample_host [] ("Alias", "a.service  b.service")
            init))
  = [("a.service", "depends-on = foo.service.dinit" ++ nl)].
Proof.
  do 2 (split; [reflexivity |]).
  destruct (alias_rule sample_host [] "a.service  b.service" init)
    as [Ho [_ Ha]]; [reflexivity |].
  split; [exact Ho | exact Ha].
Defined.

(** ** The timeout rules *)

Lemma only_digits_not_infinity (v : string) :
  only_digits v = true -> (v =? "infinity") = false.
Proof.
  intro H. apply String.eqb_neq. intros ->. discriminate.
Qed.

Lemma timeout_value (E : host) (v shown : string) (st : state) :
  (only_digits v = true /\ shown = v) \/ (v = "infinity" /\ shown = "0") ->
  (TIME <- (if v =? "infinity" then ret (PNum (Int 0)) else parse_time E v) ;;
   ret (fmt E TIME)) st = (Ok shown, st).
Proof.
  intros [[Hd ->]|[-> ->]].
  - rewrite (only_digits_not_infinity v Hd). unfold bind, parse_time.
    now rewrite (only_digits_isnumeric v Hd).
  - reflexivity.
Qed.

(** X17.  With a value made of digits, the three timeout keys write it
    as it is, and with the value [infinity] they write 0:
    [TimeoutStartSec] one [start-timeout] line, [TimeoutStopSec] one
    [stop-timeout] line, and [TimeoutSec] both lines in one write. *)
Theorem timeout_rule (E : host) (values : list pair) (v shown : string)
    (st : state) :
  (only_digits v = true /\ shown = v) \/ (v = "infinity" /\ shown = "0") ->
  translate_pair E values ("TimeoutStartSec", v) st
  = (Ok tt, emit ["start-timeout = " ++ shown ++ nl] st) /\
  translate_pair E values ("TimeoutStopSec", v) st
  = (Ok tt, emit ["stop-timeout = " ++ shown ++ nl] st) /\
  translate_pair E values ("TimeoutSec", v) st
  = (Ok tt, emit ["start-timeout = " ++ shown ++ nl ++
                  "stop-timeout = " ++ shown ++ nl] st).
Proof.
  intro H. pose proof (timeout_value E v shown st H) as Hv.
  unfold bind in Hv.
  unfold translate_pair, translate_timeout; simpl. unfold bind.
  destruct ((if v =? "infinity" then ret (PNum (Int 0)) else parse_time E v)
              st) as [[TIME|e|c] st1]; try discriminate.
  injection Hv as -> ->. repeat split.
Qed.

Lemma timeout_rule_witness :
  ((only_digits "90" = true /\ "90" = "90") \/
   ("90" = "infinity" /\ "90" = "0")) /\
  translate_pair sample_host [] ("TimeoutSec", "90") init
  = (Ok tt, emit ["start-timeout = 90" ++ nl ++ "stop-timeout = 90" ++ nl]
                 init).
Proof.
  split; [left; split; reflexivity |].
  apply (timeout_rule sample_host [] "90" "90" init).
  left; split; reflexivity.
Defined.

(** ** The [KillSignal] rule *)

(** X18.  For each of the ten signal names dinit knows, written with or
    without the prefix [SIG], the [KillSignal] rule ends normally and
    writes the one line [term-signal = ] followed by the name without
    prefix. *)
Theorem killsignal_known (E : host) (values : list pair) (n v : string)
    (st : state) :
  In n dinit_signals ->
  v = n \/ v = "SIG" ++ n ->
  fst (translate_pair E values ("KillSignal", v) st) = Ok tt /\
  target (snd (translate_pair E values ("KillSignal", v) st))
  = (target st ++ [("term-signal = " ++ n ++ nl)%string])%list.
Proof.
  unfold dinit_signals. simpl. intros H Hv. destruct E as [[] u sg f];
    repeat (destruct H as [<-|H];
            [destruct Hv as [->| ->]; split; reflexivity|]);
    contradiction.
Qed.

Lemma killsignal_known_witness :
  In "TERM" dinit_signals /\
  ("SIGTERM" = "TERM" \/ "SIGTERM" = "SIG" ++ "TERM") /\
  target (snd (translate_pair sample_host [] ("KillSignal", "SIGTERM") init))
  = ["term-signal = TERM" ++ nl].
Proof.
  split; [simpl; tauto |]. split; [right; reflexivity |].
  apply (killsignal_known sample_host [] "TERM" "SIGTERM" init);
    [simpl; tauto | right; reflexivity].
Defined.

Lemma resolve_none (v : string) (table : list (string * Z)) :
  existsb (fun ks => v =? fst ks) table = false ->
  forall SIG,
    fold_left
      (fun SIG knownsig =>
         if v =? fst knownsig then PNum (Int (snd knownsig)) else SIG)
      table SIG = SIG.
Proof.
  induction table as [|ks r IH]; simpl; intros H SIG; [reflexivity|].
  apply orb_false_elim in H as [Hk Hr]. rewrite Hk. auto.
Qed.

Lemma resolve_last (v : string) (z : Z) (l1 l2 : list (string * Z)) :
  existsb (fun ks => v =? fst ks) l2 = false ->
  forall SIG,
    fold_left
      (fun SIG knownsig =>
         if v =? fst knownsig then PNum (Int (snd knownsig)) else SIG)
      (l1 ++ (v, z) :: l2) SIG = PNum (Int z).
Proof.
  intros H SIG. rewrite fold_left_app. simpl.
  rewrite String.eqb_refl. now apply resolve_none.
Qed.

(** X19.  A signal that is neither one of the ten names nor, spelled
    exactly as in the value, a name of the platform's table is not
    translated: the rule ends normally and writes nothing to the
    target. *)
Theorem killsignal_unresolved (E : host) (values : list pair) (v : string)
    (st : state) :
  in_list (removeprefix "SIG" v) dinit_signals = false ->
  existsb (fun ks => v =? fst ks) (signals E) = false ->
  fst (translate_pair E values ("KillSignal", v) st) = Ok tt /\
  target (snd (translate_pair E values ("KillSignal", v) st)) = target st.
Proof.
  intros Hn Hs.
  change (translate_pair E values ("KillSignal", v) st)
    with (translate_killsignal E v st).
  unfold translate_killsignal.
  rewrite Hn. unfold bind, warning.
  rewrite (resolve_none v (signals E) Hs).
  destruct (quiet E); split; reflexivity.
Qed.

Lemma killsignal_unresolved_witness :
  in_list (removeprefix "SIG" "PIPE") dinit_signals = false /\
  existsb (fun ks => "PIPE" =? fst ks) (signals sample_host) = false /\
  target (snd (translate_pair sample_host [] ("KillSignal", "PIPE") init))
  = target init.
Proof.
  do 2 (split; [reflexivity |]).
  apply (killsignal_unresolved sample_host [] "PIPE" init); reflexivity.
Defined.

(** X20.  A signal outside the ten names that the platform's table
    names, with its [SIG] prefix as the table has it, is written as the
    number of its last entry in the table, when that number is not
    0. *)
Theorem killsignal_platform (E : host) (values : list pair) (v : string)
    (z : Z) (l1 l2 : list (string * Z)) (st : state) :
  in_list (removeprefix "SIG" v) dinit_signals = false ->
  signals E = (l1 ++ (v, z) :: l2)%list ->
  existsb (fun ks => v =? fst ks) l2 = false ->
  z <> 0%Z ->
  fst (translate_pair E values ("KillSignal", v) st) = Ok tt /\
  target (snd (translate_pair E values ("KillSignal", v) st))
  = (target st ++ [("term-signal = " ++ str_int z ++ nl)%string])%list.
Proof.
  intros Hn Hs Hl Hz.
  change (translate_pair E values ("KillSignal", v) st)
    with (translate_killsignal E v st).
  unfold translate_killsignal.
  rewrite Hn, Hs. unfold bind, warning.
  rewrite (resolve_last v z l1 l2 Hl).
  apply Z.eqb_neq in Hz.
  destruct (quiet E); cbn -[Z.eqb str_int]; rewrite Hz; split; reflexivity.
Qed.

Lemma killsignal_platform_witness :
  in_list (removeprefix "SIG" "SIGPIPE") dinit_signals = false /\
  signals sample_host = ([] ++ ("SIGPIPE", 13%Z) :: [("SIGALRM", 14%Z)])%list /\
  existsb (fun ks => "SIGPIPE" =? fst ks) [("SIGALRM", 14%Z)] = false /\
  13%Z <> 0%Z /\
  target (snd (translate_pair sample_host []
                 ("KillSignal", "SIGPIPE") init))
  = ["term-signal = 13" ++ nl].
Proof.
  do 3 (split; [reflexivity |]). split; [discriminate |].
  apply (killsignal_platform sample_host [] "SIGPIPE" 13
           [] [("SIGALRM", 14%Z)] init);
    [reflexivity | reflexivity | reflexivity | discriminate].
Defined.

(** ** How a run can end *)

(** X21.  The exit status of a run is 0 or 1, whatever the file. *)
Theorem exit_status_0_or_1 (E : host) (lines : list string) :
  exit_status (fst (main E lines init)) = 0%Z \/
  exit_status (fst (main E lines init)) = 1%Z.
Proof.
  destruct (read_unit lines) as [e|[values comments]] eqn:Hr.
  - unfold main. rewrite Hr. now right.
  - pose proof (main_spec E lines values comments Hr) as Hm.
    pose proof (loop_exits_one E values values init) as Hc.
    fold (translate_all E values) in Hc.
    destruct (translate_all E values init) as [[[]|e|c] st].
    + destruct Hm as [-> _]. now left.
    + rewrite Hm. now right.
    + rewrite Hm. simpl. right. now apply Hc.
Qed.

Section Succeeds.

Variable E : host.

Lemma succeeds_ret {A} (a : A) : succeeds (ret a).
Proof. intro st. now exists a. Qed.

Lemma succeeds_get {A} (f : state -> A) : succeeds (get f).
Proof. intro st. now exists (f st). Qed.

Lemma succeeds_write (s : string) : succeeds (write s).
Proof. intro st. now exists tt. Qed.

Lemma succeeds_print (s : string) : succeeds (print s).
Proof. intro st. now exists tt. Qed.

Lemma succeeds_set_is_pidfile (n : Z) : succeeds (set_is_pidfile n).
Proof. intro st. now exists tt. Qed.

Lemma succeeds_set_has_type (b : bool) : succeeds (set_has_type b).
Proof. intro st. now exists tt. Qed.

Lemma succeeds_warning (msg : string) : succeeds (warning E msg).
Proof.
  unfold warning. destruct (quiet E);
    [apply succeeds_ret | apply succeeds_print].
Qed.

Lemma succeeds_bind {A B} (m : M A) (k : A -> M B) :
  succeeds m -> (forall a, succeeds (k a)) -> succeeds (bind m k).
Proof.
  intros Hm Hk st. unfold bind. destruct (Hm st) as [a Ha].
  destruct (m st) as [o st1]. simpl in Ha. subst o. apply Hk.
Qed.

Lemma succeeds_for_each {A} (body : A -> M unit) (l : list A) :
  (forall x, In x l -> succeeds (body x)) -> succeeds (for_each body l).
Proof.
  induction l as [|x r IH]; intro Hb; simpl.
  - apply succeeds_ret.
  - apply succeeds_bind.
    + apply Hb. now left.
    + intros _. apply IH. intros y Hy. apply Hb. now right.
Qed.

End Succeeds.

Ltac succeeds_tac :=
  repeat first
    [ apply succeeds_ret | apply succeeds_get | apply succeeds_write
    | apply succeeds_print | apply succeeds_set_is_pidfile
    | apply succeeds_set_has_type | apply succeeds_warning
    | apply succeeds_bind; [| intros ?]
    | apply succeeds_for_each; intros ? _
    | match goal with
      | |- succeeds (if ?b then _ else _) =>
          destruct b eqn:?; try congruence
      end ].

Lemma translate_pair_succeeds (E : host) (values : list pair) (val : pair) :
  may_abort val = false -> succeeds (translate_pair E values val).
Proof.
  destruct val as [k v]. unfold may_abort; cbn [fst snd]. intro H.
  apply orb_false_elim in H as [Hk Hd].
  assert (in_list k ["TimeoutStartSec"; "TimeoutStopSec"; "TimeoutSec"]
          = false) as Ht.
  { unfold in_list in *. simpl in *.
    repeat (apply orb_false_elim in Hk as [? Hk]).
    repeat (apply orb_false_intro; auto). }
  assert ((k =? "Alias") = false /\ (k =? "StartLimitIntervalSec") = false)
    as [Ha Hs].
  { unfold in_list in Hk. simpl in Hk.
    repeat (apply orb_false_elim in Hk as [? Hk]). auto. }
  unfold translate_pair, translate_killsignal, translate_type; cbn [fst snd].
  destruct (k =? "Type") eqn:Hty; simpl in Hd; succeeds_tac.
Qed.

(** X22.  A run can end before its last line only at a [Type=dbus]
    pair, at an [Alias] pair or at a pair of one of the four keys with a
    time value; a file with none of these is converted to the end. *)
Theorem run_completes (E : host) (lines : list string) (values : list pair)
    (comments : list string) :
  read_unit lines = inr (values, comments) ->
  existsb may_abort values = false ->
  fst (main E lines init) = Ok tt.
Proof.
  intros Hr Hv. pose proof (main_spec E lines values comments Hr) as Hm.
  assert (succeeds (translate_all E values)) as Hs.
  { apply succeeds_for_each. intros x Hx. apply translate_pair_succeeds.
    destruct (may_abort x) eqn:Hx'; [|reflexivity].
    rewrite <- Hv. symmetry. apply existsb_exists. eauto. }
  destruct (Hs init) as [[] Ha].
  destruct (translate_all E values init) as [o st]. simpl in Ha. subst o.
  apply Hm.
Qed.

Lemma run_completes_witness :
  read_unit alice_unit = inr (alice_values, []) /\
  existsb may_abort alice_values = false /\
  fst (main sample_host alice_unit init) = Ok tt.
Proof.
  do 2 (split; [reflexivity |]).
  apply (run_completes sample_host alice_unit alice_values []); reflexivity.
Defined.

(** ** The flags after the loop *)

#[export] Instance same_flags_frame : Frame same_flags.
Proof.
  split.
  - intro st. split; reflexivity.
  - intros a b c [H1 H2] [H3 H4]. split; congruence.
  - intros s st. split; reflexivity.
  - intros n c st. unfold write_file. destruct n; split; reflexivity.
Qed.

Lemma same_flags_write (s : string) : respects same_flags (write s).
Proof. intro st. split; reflexivity. Qed.

(** As [respects_tac], for the frame [same_flags]. *)
Ltac frame_tac :=
  repeat first
    [ apply respects_ret | apply respects_raise | apply respects_os_exit
    | apply respects_get | apply frame_print | apply frame_write_file
    | apply respects_warning | apply respects_parse_time
    | apply same_flags_write
    | apply respects_bind; [| intros ?]
    | apply respects_for_each; intros ? _
    | match goal with
      | |- respects _ (if ?b then _ else _) =>
          destruct b eqn:?; try congruence
      end ].

Lemma translate_pair_same_flags (E : host) (values : list pair)
    (val : pair) :
  (fst val =? "Type") = false -> (fst val =? "PIDFile") = false ->
  respects same_flags (translate_pair E values val).
Proof.
  destruct val as [k v]; cbn [fst snd]; intros Hk Hp.
  unfold translate_pair, translate_timeout, translate_killsignal;
    cbn [fst snd].
  frame_tac.
Qed.

Lemma translate_pair_flags (E : host) (values : list pair) (val : pair)
    (st : state) :
  fst (translate_pair E values val st) = Ok tt ->
  is_pidfile (snd (translate_pair E values val st))
  = pid_step (is_pidfile st) val /\
  has_type (snd (translate_pair E values val st))
  = has_type st || (fst val =? "Type").
Proof.
  destruct val as [k v]. unfold pid_step; cbn [fst snd].
  destruct (k =? "Type") eqn:Hk.
  - apply String.eqb_eq in Hk. subst k.
    destruct (v =? "forking") eqn:Hf.
    + apply String.eqb_eq in Hf. subst v. intros _.
      split; [reflexivity | simpl; now rewrite orb_true_r].
    + unfold translate_pair, translate_type; simpl. rewrite Hf.
      unfold bind, warning.
      repeat match goal with
             | |- context [if ?b then _ else _] => destruct b
             end; simpl; intro H; try discriminate H;
        split; try reflexivity; now rewrite orb_true_r.
  - destruct (k =? "PIDFile") eqn:Hp.
    + apply String.eqb_eq in Hp. subst k. intros _.
      split; [reflexivity | simpl; now rewrite orb_false_r].
    + intros _.
      destruct (translate_pair_same_flags E values (k, v) Hk Hp st)
        as [H1 H2].
      simpl. rewrite H1, H2. now rewrite orb_false_r.
Qed.

Lemma loop_flags (E : host) (values l : list pair) :
  forall st,
    fst (for_each (translate_pair E values) l st) = Ok tt ->
    is_pidfile (snd (for_each (translate_pair E values) l st))
    = fold_left pid_step l (is_pidfile st) /\
    has_type (snd (for_each (translate_pair E values) l st))
    = has_type st || has_key "Type" l.
Proof.
  induction l as [|x r IH]; intro st; simpl.
  - intros _. now rewrite orb_false_r.
  - unfold bind.
    pose proof (translate_pair_flags E values x st) as Hx.
    destruct (translate_pair E values x st) as [[[]|e|c] st1];
      simpl in *; try discriminate.
    destruct (Hx eq_refl) as [Hp Ht]. intro Hok.
    destruct (IH st1 Hok) as [Hp' Ht']. rewrite Hp', Ht', Hp, Ht.
    now rewrite orb_assoc.
Qed.

(** X24.  When a run ends normally, what follows the lines of the pairs
    in the target depends on the pairs alone: the line [type = process]
    if and only if no pair has the key [Type], then the comments, then
    the comment about the missing pid-file if and only if the last of
    the [Type=forking] and [PIDFile] pairs is a [Type=forking] pair. *)
Theorem main_trailer (E : host) (lines : list string) (values : list pair)
    (comments : list string) :
  read_unit lines = inr (values, comments) ->
  fst (main E lines init) = Ok tt ->
  target (snd (main E lines init))
  = (target (snd (translate_all E values init))
     ++ (if has_key "Type" values then []
         else [("type = process" ++ nl)%string])
     ++ comments
     ++ (if (pid_state values =? 1)%Z then [pidfile_comment] else []))%list.
Proof.
  intros Hr Hok. pose proof (main_spec E lines values comments Hr) as Hm.
  pose proof (loop_flags E values values init) as Hf.
  fold (translate_all E values) in Hf.
  destruct (translate_all E values init) as [[[]|e|c] st]; simpl in *.
  - destruct (Hf eq_refl) as [Hp Ht]. destruct Hm as [_ ->].
    unfold trailer. rewrite Hp, Ht. reflexivity.
  - rewrite Hm in Hok. discriminate.
  - rewrite Hm in Hok. discriminate.
Qed.

Lemma main_trailer_witness :
  read_unit pidfile_first_unit
  = inr ([("PIDFile", "/run/x.pid"); ("Type", "forking")], []) /\
  fst (main sample_host pidfile_first_unit init) = Ok tt /\
  target (snd (main sample_host pidfile_first_unit init))
  = ["pid-file = /run/x.pid" ++ nl; "type = bgprocess" ++ nl;
     pidfile_comment].
Proof.
  do 2 (split; [reflexivity |]).
  apply (main_trailer sample_host pidfile_first_unit
           [("PIDFile", "/run/x.pid"); ("Type", "forking")] []);
    reflexivity.
Defined.

(** ** Time values in the rules, lines without a name *)

(** X25.  [StartLimitIntervalSec] with a value made of digits writes
    the one line [restart-limit-interval = ] followed by the value as
    it is. *)
Theorem start_limit_interval_digits (E : host) (values : list pair)
    (v : string) (st : state) :
  only_digits v = true ->
  translate_pair E values ("StartLimitIntervalSec", v) st
  = (Ok tt, emit ["restart-limit-interval = " ++ v ++ nl] st).
Proof.
  intro Hd. unfold translate_pair; simpl. unfold bind, parse_time.
  now rewrite (only_digits_isnumeric v Hd).
Qed.

Lemma start_limit_interval_digits_witness :
  only_digits "10" = true /\
  translate_pair sample_host [] ("StartLimitIntervalSec", "10") init
  = (Ok tt, emit ["restart-limit-interval = 10" ++ nl] init).
Proof.
  split; [reflexivity |].
  apply (start_limit_interval_digits sample_host [] "10" init). reflexivity.
Defined.

(** X26.  A pair of one of the four keys with a time value whose value
    is a tag of the table with no digit raises [ValueError] and leaves
    the state as it was: nothing is written for it. *)
Theorem time_key_tag_raises (E : host) (values : list pair) (k t : string)
    (st : state) :
  In k time_keys -> In t ascii_tags ->
  translate_pair E values (k, t) st = (Raised ValueError, st).
Proof.
  unfold time_keys, ascii_tags. simpl. intros Hk Ht.
  repeat (destruct Hk as [<-|Hk];
          [repeat (destruct Ht as [<-|Ht]; [reflexivity|]); contradiction|]).
  contradiction.
Qed.

Lemma time_key_tag_raises_witness :
  In "TimeoutStopSec" time_keys /\ In "min" ascii_tags /\
  translate_pair sample_host [] ("TimeoutStopSec", "min") init
  = (Raised ValueError, init).
Proof.
  split; [simpl; tauto |]. split; [simpl; tauto |].
  apply (time_key_tag_raises sample_host [] "TimeoutStopSec" "min" init);
    simpl; tauto.
Defined.

(** X27.  A line without any [=] adds nothing, whatever it holds: no
    pair, no comment, no error.  Blank lines are dropped this way, and
    so is any other text that is not an assignment. *)
Theorem read_line_without_equals (acc : list pair * list string)
    (line : string) :
  line <> "" -> is_comment_line line = false ->
  no_equals line = true ->
  read_line acc line = inr acc.
Proof.
  intros Hne Hc Hn. destruct line as [|c line]; [congruence|].
  unfold read_line. simpl in Hc. rewrite Hc.
  destruct (negb (Ascii.eqb c "[")); [|reflexivity].
  now rewrite (scan_assign_tail _ Hn).
Qed.

Lemma read_line_without_equals_witness :
  ("  some text" ++ nl) <> "" /\
  is_comment_line ("  some text" ++ nl) = false /\
  no_equals ("  some text" ++ nl) = true /\
  read_line ([], []) ("  some text" ++ nl) = inr ([], []).
Proof.
  split; [discriminate |]. do 2 (split; [reflexivity |]).
  apply (read_line_without_equals ([], []) ("  some text" ++ nl));
    [discriminate | reflexivity | reflexivity].
Defined.
